(** * ProMan front end: the navigation shell and the build configuration

    A shallow embedding of [frontend/src/App.tsx] (the component
    [AppLayout] with its [<Routes>] table, and [App], which places it under
    a [BrowserRouter]) and of the Vite configuration object.

    [App.tsx] contains no matching code of its own: it hands a table of five
    [<Route>] elements to React Router.  The part of React Router that the
    table exercises is embedded in [Module Router], function by function
    ([decodePath], [compilePath], [matchPath], [computeScore],
    [flattenRoutes], [rankRouteBranches], [matchRoutes], [Routes]), for
    patterns made of static ASCII segments with an optional trailing splat,
    which is all the table uses: it has no dynamic segment, no index route
    and no child route, and [BrowserRouter] is given no basename.

    A pathname is [location.pathname] as the browser hands it over, a
    string of characters below 256 (the browser percent-encodes the rest).
    The router decodes it before matching; what it decodes to is a
    JavaScript string, modelled as a list of UTF-16 code units. *)

From Stdlib Require Import String Ascii List Bool Arith NArith ZArith Lia.
From Stdlib Require Import Permutation.
Import ListNotations.
Open Scope string_scope.
Open Scope list_scope.

Set Warnings "-register-all".

(** ** Rendered output *)

(** The four feature modules imported at the top of [App.tsx]; each exports
    the root component of its own route tree. *)
Inductive Component : Set :=
| UserAuthRoutes
| ProjectsRoutes
| TasksRoutes
| ChatRoutes.

(** What a render produces: host elements ([<div>], [<header>], [<nav>],
    [<main>], [<h2>]), text, router links and mounted feature components. *)
Inductive ReactNode : Set :=
| Host (tag : string) (children : list ReactNode)
| Text (content : string)
| Link (to : string) (children : list ReactNode)
| Mount (component : Component).

Definition Component_eqb (a b : Component) : bool :=
  match a, b with
  | UserAuthRoutes, UserAuthRoutes
  | ProjectsRoutes, ProjectsRoutes
  | TasksRoutes, TasksRoutes
  | ChatRoutes, ChatRoutes => true
  | _, _ => false
  end.

(** The feature components mounted anywhere inside a rendered node. *)
Fixpoint delegates (n : ReactNode) : list Component :=
  match n with
  | Host _ children => flat_map delegates children
  | Text _ => []
  | Link _ children => flat_map delegates children
  | Mount c => [c]
  end.

(** The router links anywhere inside a rendered node, as (target, label
    nodes) pairs in document order. *)
Fixpoint links (n : ReactNode) : list (string * list ReactNode) :=
  match n with
  | Host _ children => flat_map links children
  | Text _ => []
  | Link to children => [(to, children)]
  | Mount _ => []
  end.

(** ** The router *)

Module Router.

(** A [<Route path=... element=... />]. *)
Record Route : Set := mkRoute {
  path : string;
  element : ReactNode
}.

(** *** Strings *)

(** A JavaScript string: its UTF-16 code units. *)
Definition ustring : Set := list N.

(** The code units of a string of characters below 256. *)
Fixpoint units (s : string) : ustring :=
  match s with
  | EmptyString => []
  | String c s' => N_of_ascii c :: units s'
  end.

(** Case folding of the regular expression flag [i]: ASCII letters fold
    to upper case; a code unit outside ASCII never folds onto an ASCII
    one, so against the ASCII patterns of the table it is left alone. *)
Definition canonicalize (u : N) : N :=
  if ((97 <=? u) && (u <=? 122))%N then (u - 32)%N else u.

Definition slash : ascii := "/"%char.
Definition star : ascii := "*"%char.

(** The code unit of the slash. *)
Definition slashUnit : N := 47%N.

(** The line terminators, which the dot of a regular expression does not
    match: line feed, carriage return, line separator and paragraph
    separator. *)
Definition lineTerminator (u : N) : bool :=
  ((u =? 10) || (u =? 13) || (u =? 8232) || (u =? 8233))%N.

(** No code unit of the string is a line terminator. *)
Definition lineFree (d : ustring) : bool :=
  forallb (fun u => negb (lineTerminator u)) d.

(** [s.split(sep)] for a one-character separator. *)
Fixpoint split (sep : ascii) (s : string) : list string :=
  match s with
  | EmptyString => [EmptyString]
  | String c s' =>
      if Ascii.eqb c sep then EmptyString :: split sep s'
      else match split sep s' with
           | h :: t => String c h :: t
           | [] => [String c EmptyString]
           end
  end.

(** [segments.join(sep)] on code units. *)
Fixpoint join (sep : ustring) (segments : list ustring) : ustring :=
  match segments with
  | [] => []
  | [s] => s
  | s :: rest => s ++ sep ++ join sep rest
  end.

(** The string without its leading slashes. *)
Fixpoint dropSlashes (s : string) : string :=
  match s with
  | String c s' => if Ascii.eqb c slash then dropSlashes s' else s
  | EmptyString => EmptyString
  end.

(** The replacement of every run of slashes by one slash, which
    [joinPaths] applies to the path of a route.  [afterSlash] tells that
    the character before was a slash.  (The paths of the table hold no
    backslash, which later versions of the router treat like a slash
    here.) *)
Fixpoint collapseFrom (afterSlash : bool) (s : string) : string :=
  match s with
  | EmptyString => EmptyString
  | String c s' =>
      if Ascii.eqb c slash then
        if afterSlash then collapseFrom true s'
        else String slash (collapseFrom true s')
      else String c (collapseFrom false s')
  end.

Definition collapseSlashes (s : string) : string := collapseFrom false s.

(** The string reversed, used to look at the end of a pattern. *)
Fixpoint rev_append (s acc : string) : string :=
  match s with
  | EmptyString => acc
  | String c s' => rev_append s' (String c acc)
  end.

Definition reverse (s : string) : string := rev_append s EmptyString.

Definition endsWithStar (s : string) : bool :=
  match reverse s with
  | String c _ => Ascii.eqb c star
  | EmptyString => false
  end.

(** The first replacement of [compilePath]: an optional final star and
    the slashes before it are removed. *)
Definition stripTrailing (s : string) : string :=
  let r := reverse s in
  let r := match r with
           | String c r' => if Ascii.eqb c star then r' else r
           | EmptyString => r
           end in
  reverse (dropSlashes r).

(** The second replacement of [compilePath]: exactly one leading
    slash. *)
Definition leadingSlash (s : string) : string :=
  String slash (dropSlashes s).

(** Every code unit of the string is a slash. *)
Definition slashesOnly (d : ustring) : bool :=
  forallb (fun u => (u =? slashUnit)%N) d.

(** *** [decodePath] *)

(** The value of a hexadecimal digit. *)
Definition hexValue (c : ascii) : option N :=
  let n := N_of_ascii c in
  if ((48 <=? n) && (n <=? 57))%N then Some (n - 48)%N
  else if ((65 <=? n) && (n <=? 70))%N then Some (n - 55)%N
  else if ((97 <=? n) && (n <=? 102))%N then Some (n - 87)%N
  else None.

(** A segment read from left to right: a character that stands for
    itself, or the byte of a percent escape. *)
Inductive Token : Set :=
| Plain (u : N)
| Escaped (byte : N).

(** The percent escapes of a segment, read; [None] when a percent sign is
    not followed by two hexadecimal digits. *)
Fixpoint unescape (s : string) : option (list Token) :=
  match s with
  | EmptyString => Some []
  | String c rest =>
      if Ascii.eqb c "%"%char then
        match rest with
        | String h1 (String h2 rest') =>
            match hexValue h1, hexValue h2, unescape rest' with
            | Some a, Some b, Some ts => Some (Escaped (16 * a + b)%N :: ts)
            | _, _, _ => None
            end
        | _ => None
        end
      else option_map (cons (Plain (N_of_ascii c))) (unescape rest)
  end.

(** The payload of a continuation byte of UTF-8, which must come from an
    escape and have the two top bits 10. *)
Definition continuation (t : Token) : option N :=
  match t with
  | Escaped b => if ((128 <=? b) && (b <? 192))%N then Some (b - 128)%N else None
  | Plain _ => None
  end.

(** The UTF-16 code units of a code point. *)
Definition utf16 (cp : N) : ustring :=
  if (cp <? 65536)%N then [cp]
  else [ (55296 + (cp - 65536) / 1024)%N; (56320 + (cp - 65536) mod 1024)%N ].

(** The escaped bytes taken as UTF-8: a byte below 128 is its own
    character; a leading byte announces one, two or three continuation
    bytes, which must follow as escapes, and the code point must be one
    that needs that many bytes, no surrogate, and at most 10FFFF. *)
Fixpoint utf8 (ts : list Token) : option ustring :=
  match ts with
  | [] => Some []
  | Plain u :: rest => option_map (cons u) (utf8 rest)
  | Escaped b :: rest =>
      if (b <? 128)%N then option_map (cons b) (utf8 rest)
      else if (b <? 192)%N then None
      else if (b <? 224)%N then
        match rest with
        | t1 :: rest' =>
            match continuation t1, utf8 rest' with
            | Some c1, Some d =>
                let cp := ((b - 192) * 64 + c1)%N in
                if (128 <=? cp)%N then Some (utf16 cp ++ d) else None
            | _, _ => None
            end
        | _ => None
        end
      else if (b <? 240)%N then
        match rest with
        | t1 :: t2 :: rest' =>
            match continuation t1, continuation t2, utf8 rest' with
            | Some c1, Some c2, Some d =>
                let cp := ((b - 224) * 4096 + c1 * 64 + c2)%N in
                if ((2048 <=? cp) && negb ((55296 <=? cp) && (cp <=? 57343)))%N
                then Some (utf16 cp ++ d) else None
            | _, _, _ => None
            end
        | _ => None
        end
      else if (b <? 248)%N then
        match rest with
        | t1 :: t2 :: t3 :: rest' =>
            match continuation t1, continuation t2, continuation t3,
                  utf8 rest' with
            | Some c1, Some c2, Some c3, Some d =>
                let cp := ((b - 240) * 262144 + c1 * 4096 + c2 * 64 + c3)%N in
                if ((65536 <=? cp) && (cp <=? 1114111))%N
                then Some (utf16 cp ++ d) else None
            | _, _, _, _ => None
            end
        | _ => None
        end
      else None
  end.

(** [decodeURIComponent]; [None] when it throws. *)
Definition decodeURIComponent (s : string) : option ustring :=
  match unescape s with
  | Some ts => utf8 ts
  | None => None
  end.

(** The replacement of every slash of a decoded segment by the text of
    its escape. *)
Definition encodeSlashes (d : ustring) : ustring :=
  flat_map (fun u => if (u =? slashUnit)%N then [37; 50; 70]%N else [u]) d.

(** Every segment decoded; [None] as soon as one cannot be. *)
Fixpoint decodeSegments (segments : list string) : option (list ustring) :=
  match segments with
  | [] => Some []
  | v :: rest =>
      match decodeURIComponent v, decodeSegments rest with
      | Some d, Some ds => Some (encodeSlashes d :: ds)
      | _, _ => None
      end
  end.

(** [decodePath]: the pathname with its segments decoded one by one, an
    escaped slash staying escaped; the pathname as it is when a segment
    is malformed. *)
Definition decodePath (value : string) : ustring :=
  match decodeSegments (split slash value) with
  | Some segments => join [slashUnit] segments
  | None => units value
  end.

(** *** [compilePath] and [matchPath] *)

(** What the compiled expression requires after the static prefix:
    - [TailAny], for the patterns of a lone star with or without a slash
      before it: any characters but line terminators;
    - [TailSplat], for any other pattern ending in a star: a slash and at
      least one more character, none a line terminator, or else only
      slashes;
    - [TailEnd], for a pattern without a star (matching to the end):
      only slashes, so that trailing slashes are ignored. *)
Inductive Tail : Set :=
| TailAny
| TailSplat
| TailEnd.

(** The compiled form of a pattern: the static prefix, compared without
    regard to case, and the tail. *)
Record Matcher : Set := mkMatcher {
  prefix : string;
  tail : Tail
}.

Definition compilePath (pattern : string) : Matcher :=
  {| prefix := leadingSlash (stripTrailing pattern);
     tail := if endsWithStar pattern then
               if String.eqb pattern "*" || String.eqb pattern "/*"
               then TailAny else TailSplat
             else TailEnd |}.

(** The rest of [d] after the prefix [pre], letters compared without
    regard to case; [None] when [d] does not start with [pre]. *)
Fixpoint stripPrefix (pre : string) (d : ustring) : option ustring :=
  match pre with
  | EmptyString => Some d
  | String a pre' =>
      match d with
      | [] => None
      | u :: d' =>
          if (canonicalize (N_of_ascii a) =? canonicalize u)%N
          then stripPrefix pre' d' else None
      end
  end.

Definition tailMatches (t : Tail) (rest : ustring) : bool :=
  match t with
  | TailAny => lineFree rest
  | TailSplat =>
      match rest with
      | u :: ((_ :: _) as more) =>
          (u =? slashUnit)%N && lineFree more || slashesOnly rest
      | _ => slashesOnly rest
      end
  | TailEnd => slashesOnly rest
  end.

Definition exec (m : Matcher) (pathname : ustring) : bool :=
  match stripPrefix (prefix m) pathname with
  | Some rest => tailMatches (tail m) rest
  | None => false
  end.

(** [matchPath] for a pattern that is not case sensitive and matches to
    the end, which is how [matchRoutes] calls it for a route without
    children; the result is whether there is a match. *)
Definition matchPath (pattern : string) (pathname : ustring) : bool :=
  exec (compilePath pattern) pathname.
(** *** Ranking *)

Definition isWordChar (c : ascii) : bool :=
  let n := N_of_ascii c in
  ((48 <=? n) && (n <=? 57) || (65 <=? n) && (n <=? 90)
   || (97 <=? n) && (n <=? 122) || (n =? 95))%N.

(** The test of a dynamic segment: a colon followed by one or more word
    characters or dashes. *)
Definition isParam (segment : string) : bool :=
  match segment with
  | String c (String d rest) =>
      Ascii.eqb c ":"%char
      && forallb (fun x => isWordChar x || Ascii.eqb x "-"%char)
                 (d :: list_ascii_of_string rest)
  | _ => false
  end.

Definition isSplat (segment : string) : bool := String.eqb segment "*".

Definition dynamicSegmentValue : Z := 3.
Definition indexRouteValue : Z := 2.
Definition emptySegmentValue : Z := 1.
Definition staticSegmentValue : Z := 10.
Definition splatPenalty : Z := -2.

Definition computeScore (path : string) (index : bool) : Z :=
  let segments := split slash path in
  let initialScore := Z.of_nat (List.length segments) in
  let initialScore :=
    if existsb isSplat segments then (initialScore + splatPenalty)%Z
    else initialScore in
  let initialScore :=
    if index then (initialScore + indexRouteValue)%Z else initialScore in
  fold_left
    (fun score segment =>
       (score + (if isParam segment then dynamicSegmentValue
                 else if String.eqb segment "" then emptySegmentValue
                 else staticSegmentValue))%Z)
    (filter (fun s => negb (isSplat s)) segments)
    initialScore.

(** A flattened route.  The routes of a table without child routes are
    all siblings, so a branch carries one route and its position. *)
Record RouteBranch : Set := mkBranch {
  branchPath : string;
  score : Z;
  childrenIndex : nat;
  relativePath : string;
  route : Route
}.

Definition joinPaths (paths : list string) : string :=
  collapseSlashes (String.concat "/" paths).

Fixpoint flattenFrom (index : nat) (routes : list Route) : list RouteBranch :=
  match routes with
  | [] => []
  | r :: rest =>
      let path := joinPaths [""; Router.path r] in
      {| branchPath := path;
         score := computeScore path false;
         childrenIndex := index;
         relativePath := Router.path r;
         route := r |} :: flattenFrom (S index) rest
  end.

Definition flattenRoutes (routes : list Route) : list RouteBranch :=
  flattenFrom 0 routes.

(** The comparison of [rankRouteBranches]: higher score first, and among
    siblings of equal score the one declared first. *)
Definition compareBranches (a b : RouteBranch) : Z :=
  if negb (Z.eqb (score a) (score b)) then (score b - score a)%Z
  else (Z.of_nat (childrenIndex a) - Z.of_nat (childrenIndex b))%Z.

Fixpoint insertBranch (b : RouteBranch) (sorted : list RouteBranch)
  : list RouteBranch :=
  match sorted with
  | [] => [b]
  | x :: rest =>
      if (compareBranches b x <=? 0)%Z then b :: sorted
      else x :: insertBranch b rest
  end.

(** The sort of the branches by [compareBranches]; it is stable: a
    branch is inserted in front of the ones it does not come after, and
    [fold_right] inserts the earlier branches last. *)
Definition rankRouteBranches (branches : list RouteBranch) : list RouteBranch :=
  fold_right insertBranch [] branches.

(** *** [matchRoutes] and [<Routes>] *)

(** An empty pathname stands for the root. *)
Definition pathnameOrRoot (pathname : string) : string :=
  if String.eqb pathname "" then "/" else pathname.

Definition matchRouteBranch (branch : RouteBranch) (pathname : ustring) : bool :=
  matchPath (relativePath branch) pathname.

(** The first branch, in rank order, that matches the decoded
    pathname. *)
Definition matchRoutes (routes : list Route) (pathname : string) : option Route :=
  let pathname := pathnameOrRoot pathname in
  let decoded := decodePath pathname in
  option_map route
    (find (fun branch => matchRouteBranch branch decoded)
          (rankRouteBranches (flattenRoutes routes))).

(** [<Routes>] renders the element of the matched route, and nothing when
    no route matches. *)
Definition Routes (routes : list Route) (pathname : string) : list ReactNode :=
  match matchRoutes routes pathname with
  | Some r => [element r]
  | None => []
  end.

(** Whether the router matches [pathname] against [pattern]. *)
Definition matches (pattern pathname : string) : bool :=
  matchPath pattern (decodePath (pathnameOrRoot pathname)).

End Router.

(** ** [App.tsx] *)

Module App.
Import Router.

Definition welcome : ReactNode :=
  Host "h2" [Text "Welcome to your Project Management App!"].

(** The children of [<Routes>] in [AppLayout], in source order. *)
Definition routes : list Route :=
  [ {| path := "/auth/*"; element := Mount UserAuthRoutes |};
    {| path := "/projects/*"; element := Mount ProjectsRoutes |};
    {| path := "/tasks/*"; element := Mount TasksRoutes |};
    {| path := "/chat/*"; element := Mount ChatRoutes |};
    {| path := "/"; element := welcome |} ].

Definition header : ReactNode :=
  Host "header"
    [Host "nav"
       [Link "/projects" [Text "Projects"]; Text " | ";
        Link "/tasks" [Text "Tasks"]; Text " | ";
        Link "/chat" [Text "Chat"]; Text " | ";
        Link "/login" [Text "Login"]]].

(** The router outlet: the children of [<main>]. *)
Definition outlet (pathname : string) : list ReactNode :=
  Routes routes pathname.

Definition AppLayout (pathname : string) : ReactNode :=
  Host "div" [header; Host "main" (outlet pathname)].

(** A location, as the router's history keeps it: the pathname apart
    from the query and the fragment. *)
Record Location : Set := mkLocation {
  pathname : string;
  search : string;
  hash : string
}.

(** The state that [BrowserRouter] reads: the current location, the
    history entries behind it, and the number of documents loaded so far
    in this tab. *)
Record Browser : Set := mkBrowser {
  location : Location;
  back : list Location;
  documentLoads : nat
}.

(** [createPath]: a location written as one string. *)
Definition createPath (l : Location) : string :=
  let search :=
    if String.eqb (search l) "" || String.eqb (search l) "?" then ""
    else if String.prefix "?" (search l) then search l
    else ("?" ++ search l)%string in
  let hash :=
    if String.eqb (hash l) "" || String.eqb (hash l) "#" then ""
    else if String.prefix "#" (hash l) then hash l
    else ("#" ++ hash l)%string in
  (pathname l ++ search ++ hash)%string.

(** Opening a URL, or reloading: a new document is loaded. *)
Definition load (to : Location) (b : Browser) : Browser :=
  {| location := to; back := location b :: back b;
     documentLoads := S (documentLoads b) |}.

(** [history.push]: a new entry on top of the current one; the document
    stays. *)
Definition push (to : Location) (b : Browser) : Browser :=
  {| location := to; back := location b :: back b;
     documentLoads := documentLoads b |}.

(** [history.replace]: the current entry gives way to the new one; the
    document stays. *)
Definition replace (to : Location) (b : Browser) : Browser :=
  {| location := to; back := back b;
     documentLoads := documentLoads b |}.

(** Client-side navigation to a location that the router has resolved:
    an entry is pushed, or the current one replaced when asked for, and
    the router renders again. *)
Definition navigate (to : Location) (replaceEntry : bool) (b : Browser)
  : Browser :=
  if replaceEntry then replace to b else push to b.

(** A plain left click on a [<Link>] whose target is an absolute path
    without query or fragment, as the four of the header are: the router
    resolves such a target to itself, and the click replaces the current
    entry when the target is where the browser already is. *)
Definition clickLink (l : string * list ReactNode) (b : Browser) : Browser :=
  let to := {| pathname := fst l; search := ""; hash := "" |} in
  navigate to (String.eqb (createPath (location b)) (createPath to)) b.

(** [App]: the layout under the router, rendered for the browser's
    current location. *)
Definition App (b : Browser) : ReactNode :=
  AppLayout (pathname (location b)).

(** The main region of a rendered [App]. *)
Definition mainRegion (n : ReactNode) : list ReactNode :=
  match n with
  | Host _ [_; Host _ content] => content
  | _ => []
  end.

(** The header region of a rendered [App]. *)
Definition headerRegion (n : ReactNode) : option ReactNode :=
  match n with
  | Host _ (h :: _) => Some h
  | _ => None
  end.

End App.

(** ** The build configuration *)

Module Vite.

Module Babel.
Record Options : Set := mkOptions {
  plugins : list (list string)
}.
End Babel.

Module React.
Record Options : Set := mkOptions {
  babel : Babel.Options
}.
End React.

Inductive Plugin : Set :=
| react (options : React.Options)
| tailwindcss.

Module Terser.
Record CompressOptions : Set := mkCompress {
  drop_console : bool
}.
Record Options : Set := mkOptions {
  compress : CompressOptions
}.
End Terser.

Record BuildOptions : Set := mkBuild {
  outDir : string;
  minify : string;
  terserOptions : Terser.Options;
  chunkSizeWarningLimit : N
}.

Record UserConfig : Set := mkConfig {
  plugins : list Plugin;
  build : BuildOptions
}.

(** [defineConfig] returns the object it is given. *)
Definition defineConfig (config : UserConfig) : UserConfig := config.

(** The default export of the configuration file. *)
Definition config : UserConfig :=
  defineConfig
    {| plugins :=
         [ react {| React.babel :=
                      {| Babel.plugins := [["babel-plugin-react-compiler"]] |} |};
           tailwindcss ];
       build :=
         {| outDir := "build";
            minify := "terser";
            terserOptions :=
              {| Terser.compress := {| Terser.drop_console := true |} |};
            chunkSizeWarningLimit := 2000 |} |}.

End Vite.

(** * Properties of the navigation shell *)

(** ** Auxiliary definitions *)

(** The pathname as the matcher sees it: the root for the empty
    pathname, decoded. *)
Definition decoded (pathname : string) : Router.ustring :=
  Router.decodePath (Router.pathnameOrRoot pathname).

(** The second code unit of a decoded pathname, case folded: the one by
    which the five patterns of the table tell paths apart. *)
Definition secondFolded (d : Router.ustring) : option N :=
  match d with
  | _ :: u :: _ => Some (Router.canonicalize u)
  | _ => None
  end.

(** The entries of a routing table whose pattern matches a pathname. *)
Definition matching (routes : list Router.Route) (pathname : string)
  : list Router.Route :=
  filter (fun r => Router.matches (Router.path r) pathname) routes.

(** A string with its letters case folded. *)
Definition foldUnits (d : Router.ustring) : Router.ustring :=
  map Router.canonicalize d.

Definition foldCase (s : string) : Router.ustring :=
  foldUnits (Router.units s).

(** No character of the string is a slash. *)
Fixpoint noSlash (s : string) : bool :=
  match s with
  | EmptyString => true
  | String c s' => negb (Ascii.eqb c Router.slash) && noSlash s'
  end.

(** Every character of the string is a slash. *)
Fixpoint allSlashes (s : string) : bool :=
  match s with
  | EmptyString => true
  | String c s' => Ascii.eqb c Router.slash && allSlashes s'
  end.

(** The string has no percent sign, hence no escape. *)
Fixpoint plain (s : string) : bool :=
  match s with
  | EmptyString => true
  | String c s' => negb (Ascii.eqb c "%"%char) && plain s'
  end.

Fixpoint sameUnits (a b : Router.ustring) : bool :=
  match a, b with
  | [], [] => true
  | u :: a', v :: b' => (u =? v)%N && sameUnits a' b'
  | _, _ => false
  end.

(** The pathnames of a feature section, said without the matcher: the
    decoded pathname begins with the prefix of the section, in any letter
    case, and goes on with nothing, or with a slash and then no line
    terminator. *)
Definition inSection (pre : string) (d : Router.ustring) : bool :=
  let n := String.length pre in
  sameUnits (foldUnits (firstn n d)) (foldCase pre)
  && match skipn n d with
     | [] => true
     | u :: rest => (u =? Router.slashUnit)%N && Router.lineFree rest
     end.

(** The routing table, said without the matcher: what the main region
    holds for a pathname. *)
Definition tableOutlet (pathname : string) : list ReactNode :=
  let d := decoded pathname in
  if inSection "/auth" d then [Mount UserAuthRoutes]
  else if inSection "/projects" d then [Mount ProjectsRoutes]
  else if inSection "/tasks" d then [Mount TasksRoutes]
  else if inSection "/chat" d then [Mount ChatRoutes]
  else if allSlashes pathname then [App.welcome]
  else [].

(** The routing table as the specification words it: the four splat
    entries as the router matches them, the welcome heading for the path
    [/] and no other, and nothing for any other path. *)
Definition claimedOutlet (pathname : string) : list ReactNode :=
  if Router.matches "/auth/*" pathname then [Mount UserAuthRoutes]
  else if Router.matches "/projects/*" pathname then [Mount ProjectsRoutes]
  else if Router.matches "/tasks/*" pathname then [Mount TasksRoutes]
  else if Router.matches "/chat/*" pathname then [Mount ChatRoutes]
  else if String.eqb pathname "/" then [App.welcome]
  else [].

(** What may follow the prefix of a section in a pathname without
    escapes: nothing, or a slash and then no line terminator. *)
Definition atBoundary (rest : string) : bool :=
  match rest with
  | EmptyString => true
  | String c rest' =>
      Ascii.eqb c Router.slash && Router.lineFree (Router.units rest')
  end.

(** The label of a link, when it is a single text. *)
Definition labelOf (l : string * list ReactNode) : string :=
  match snd l with
  | [Text t] => t
  | _ => ""
  end.


(** Two optional decoded strings that are both missing, or both there
    and the same up to letter case. *)
Definition sameFolded (o o' : option Router.ustring) : Prop :=
  match o, o' with
  | Some d, Some d' => foldUnits d = foldUnits d'
  | None, None => True
  | _, _ => False
  end.

(** Two tokens that are the same up to the letter case of a plain
    character. *)
Definition sameToken (t t' : Router.Token) : Prop :=
  match t, t' with
  | Router.Plain u, Router.Plain u' =>
      Router.canonicalize u = Router.canonicalize u'
  | Router.Escaped b, Router.Escaped b' => b = b'
  | _, _ => False
  end.

(** ** The matcher *)

Section Matcher.
Import Router.

Lemma canonicalize_slash u :
  (canonicalize u =? slashUnit)%N = (u =? slashUnit)%N.
Proof.
  unfold canonicalize, slashUnit.
  destruct ((97 <=? u) && (u <=? 122))%N eqn:E; [|reflexivity].
  apply andb_true_iff in E as [E1 E2].
  apply N.leb_le in E1, E2.
  destruct (u - 32 =? 47)%N eqn:A; destruct (u =? 47)%N eqn:B;
    try reflexivity;
    rewrite ?N.eqb_eq, ?N.eqb_neq in *; lia.
Qed.

Lemma slashesOnly_lineFree d :
  slashesOnly d = true -> lineFree d = true.
Proof.
  induction d as [|u d IH]; [reflexivity|].
  cbn. intros H. apply andb_true_iff in H as [Hu Hd].
  apply N.eqb_eq in Hu. subst u. cbn. now apply IH.
Qed.

(** The splat, after the prefix: nothing, or a slash and then no line
    terminator. *)
Lemma tailMatches_splat rest :
  tailMatches TailSplat rest
  = match rest with
    | [] => true
    | u :: more => (u =? slashUnit)%N && lineFree more
    end.
Proof.
  destruct rest as [|u [|v more]]; [reflexivity|reflexivity|].
  cbn [tailMatches].
  change (slashesOnly (u :: v :: more))
    with ((u =? slashUnit)%N && slashesOnly (v :: more)).
  destruct (u =? slashUnit)%N; [|reflexivity]. cbn [andb].
  destruct (lineFree (v :: more)) eqn:L; [reflexivity|]. cbn [orb].
  destruct (slashesOnly (v :: more)) eqn:S; [|reflexivity].
  apply slashesOnly_lineFree in S. congruence.
Qed.

(** A matcher whose prefix has two characters or more fixes the second
    code unit of what it accepts. *)
Lemma exec_second a b pre t d :
  exec {| prefix := String a (String b pre); tail := t |} d = true ->
  secondFolded d = Some (canonicalize (N_of_ascii b)).
Proof.
  unfold exec; cbn [prefix tail].
  destruct d as [|u [|v d']]; cbn [stripPrefix secondFolded].
  - discriminate.
  - destruct (_ =? _)%N; discriminate.
  - destruct (canonicalize (N_of_ascii a) =? canonicalize u)%N; [|discriminate].
    destruct (canonicalize (N_of_ascii b) =? canonicalize v)%N eqn:E;
      [|discriminate].
    apply N.eqb_eq in E. now rewrite E.
Qed.

(** The root pattern accepts slashes only, and at least one. *)
Lemma exec_root d :
  exec {| prefix := "/"; tail := TailEnd |} d
  = match d with
    | [] => false
    | u :: rest => (u =? slashUnit)%N && slashesOnly rest
    end.
Proof.
  unfold exec; cbn [prefix tail].
  destruct d as [|u rest]; cbn [stripPrefix tailMatches]; [reflexivity|].
  change (canonicalize (N_of_ascii "/")) with slashUnit.
  rewrite N.eqb_sym, canonicalize_slash.
  now destruct (u =? slashUnit)%N.
Qed.

Lemma exec_root_second d :
  exec {| prefix := "/"; tail := TailEnd |} d = true ->
  secondFolded d = None \/ secondFolded d = Some slashUnit.
Proof.
  rewrite exec_root.
  destruct d as [|u [|v d']]; cbn [secondFolded]; try discriminate.
  - now left.
  - intros H. apply andb_true_iff in H as [_ H]. cbn in H.
    apply andb_true_iff in H as [H _]. apply N.eqb_eq in H. subst v.
    now right.
Qed.

Lemma sameUnits_refl a : sameUnits a a = true.
Proof.
  induction a as [|u a IH]; [reflexivity|].
  cbn. now rewrite N.eqb_refl.
Qed.

Lemma sameUnits_eq a b : sameUnits a b = true -> a = b.
Proof.
  revert b. induction a as [|u a IH]; intros [|v b]; cbn;
    try discriminate; [reflexivity|].
  intros H. apply andb_true_iff in H as [E H]. apply N.eqb_eq in E.
  now rewrite E, (IH b H).
Qed.

(** A splat matcher accepts the pathnames of its section, and no
    other. *)
Lemma exec_splat_inSection pre d :
  exec {| prefix := pre; tail := TailSplat |} d = inSection pre d.
Proof.
  unfold exec, inSection; cbn [prefix tail]. revert d.
  induction pre as [|a pre IH]; intros d.
  - cbn [stripPrefix String.length firstn skipn foldCase foldUnits units map
         sameUnits andb].
    apply tailMatches_splat.
  - destruct d as [|u d'].
    + reflexivity.
    + cbn [stripPrefix String.length firstn skipn foldCase foldUnits units map
           sameUnits].
      rewrite (N.eqb_sym (canonicalize u)).
      destruct (canonicalize (N_of_ascii a) =? canonicalize u)%N;
        [|reflexivity].
      cbn [andb]. apply IH.
Qed.

End Matcher.

(** A few pathnames against the patterns of the table, escapes and line
    terminators among them. *)
Example matchPath_samples :
  map (Router.matches "/auth/*")
      ["/auth"; "/auth/"; "/auth/login"; "/AUTH/login/reset"; "/%61uth/login";
       "/authx"; "/login"; "/"; "/auth/%0A"; "/auth/%E2%80%A8"; "/auth%2Fx"]
    = [true; true; true; true; true;
       false; false; false; false; false; false]
  /\ map (Router.matches "/") ["/"; "//"; "/x"; ""; "/%2F"]
     = [true; true; false; true; false].
Proof. split; reflexivity. Qed.

(** ** The table of [AppLayout] *)

Section Table.
Import Router App.

(** Ranking leaves the table in its source order: the four splat routes
    score 12 each, the root route 4. *)
Lemma ranked_routes :
  map (fun b => (relativePath b, score b, element (route b)))
      (rankRouteBranches (flattenRoutes routes))
  = [ ("/auth/*", 12%Z, Mount UserAuthRoutes);
      ("/projects/*", 12%Z, Mount ProjectsRoutes);
      ("/tasks/*", 12%Z, Mount TasksRoutes);
      ("/chat/*", 12%Z, Mount ChatRoutes);
      ("/", 4%Z, welcome) ].
Proof. reflexivity. Qed.

(** The outlet tries the five patterns in that order. *)
Lemma outlet_cases p :
  outlet p =
    if matches "/auth/*" p then [Mount UserAuthRoutes]
    else if matches "/projects/*" p then [Mount ProjectsRoutes]
    else if matches "/tasks/*" p then [Mount TasksRoutes]
    else if matches "/chat/*" p then [Mount ChatRoutes]
    else if matches "/" p then [welcome]
    else [].
Proof.
  unfold outlet, Routes, matchRoutes, matches.
  let ranked := eval vm_compute in (rankRouteBranches (flattenRoutes routes)) in
  change (rankRouteBranches (flattenRoutes routes)) with ranked.
  generalize (decodePath (pathnameOrRoot p)); intros q.
  cbn [find]. unfold matchRouteBranch. cbn [relativePath].
  repeat (match goal with
          | |- context [matchPath ?pat q] => destruct (matchPath pat q)
          end; [reflexivity|]).
  reflexivity.
Qed.

(** The four splat patterns accept the pathnames of their sections. *)
Lemma matches_section pat pre p :
  compilePath pat = {| prefix := pre; tail := TailSplat |} ->
  matches pat p = inSection pre (decoded p).
Proof.
  intros E. unfold matches, matchPath. rewrite E.
  apply exec_splat_inSection.
Qed.

Lemma auth_second p :
  matches "/auth/*" p = true -> secondFolded (decoded p) = Some 65%N.
Proof. apply (exec_second "/" "a" "uth" TailSplat). Qed.

Lemma projects_second p :
  matches "/projects/*" p = true -> secondFolded (decoded p) = Some 80%N.
Proof. apply (exec_second "/" "p" "rojects" TailSplat). Qed.

Lemma tasks_second p :
  matches "/tasks/*" p = true -> secondFolded (decoded p) = Some 84%N.
Proof. apply (exec_second "/" "t" "asks" TailSplat). Qed.

Lemma chat_second p :
  matches "/chat/*" p = true -> secondFolded (decoded p) = Some 67%N.
Proof. apply (exec_second "/" "c" "hat" TailSplat). Qed.

Lemma root_second p :
  matches "/" p = true ->
  secondFolded (decoded p) = None \/ secondFolded (decoded p) = Some 47%N.
Proof. apply exec_root_second. Qed.

(** The five patterns exclude one another: whatever a pathname is, the
    table has at most one entry for it. *)
Lemma matching_cases p :
  matching routes p = []
  \/ exists r, In r routes /\ matching routes p = [r].
Proof.
  unfold matching, routes; cbn [filter path].
  destruct (matches "/auth/*" p) eqn:Ha;
    [apply auth_second in Ha|];
  (destruct (matches "/projects/*" p) eqn:Hp;
    [apply projects_second in Hp|]);
  (destruct (matches "/tasks/*" p) eqn:Ht;
    [apply tasks_second in Ht|]);
  (destruct (matches "/chat/*" p) eqn:Hc;
    [apply chat_second in Hc|]);
  (destruct (matches "/" p) eqn:Hr;
    [apply root_second in Hr as [Hr|Hr]|]);
  try congruence;
  try (left; reflexivity);
  right; eexists; (split; [|reflexivity]); cbn; tauto.
Qed.

End Table.

Section Dispatch.
Import Router App.

(** The outlet holds the elements of the table entries that match. *)
Lemma outlet_matching p :
  outlet p = map element (matching routes p).
Proof.
  rewrite outlet_cases. unfold matching, routes; cbn [filter path].
  destruct (matches "/auth/*" p) eqn:Ha;
    [apply auth_second in Ha|];
  (destruct (matches "/projects/*" p) eqn:Hp;
    [apply projects_second in Hp|]);
  (destruct (matches "/tasks/*" p) eqn:Ht;
    [apply tasks_second in Ht|]);
  (destruct (matches "/chat/*" p) eqn:Hc;
    [apply chat_second in Hc|]);
  (destruct (matches "/" p) eqn:Hr;
    [apply root_second in Hr as [Hr|Hr]|]);
  try congruence; reflexivity.
Qed.

Lemma outlet_of_match p r :
  In r routes -> matches (path r) p = true -> outlet p = [element r].
Proof.
  intros Hin Hm. rewrite outlet_matching.
  assert (Hf : In r (matching routes p)) by (apply filter_In; auto).
  destruct (matching_cases p) as [E|[r' [_ E]]]; rewrite E in *.
  - destruct Hf.
  - destruct Hf as [->|[]]. reflexivity.
Qed.

Lemma outlet_no_match p :
  (forall r, In r routes -> matches (path r) p = false) -> outlet p = [].
Proof.
  intros H. rewrite outlet_matching. unfold matching.
  induction routes as [|r rs IH]; [reflexivity|].
  cbn [filter]. rewrite (H r (or_introl eq_refl)).
  apply IH. intros r' Hr'. apply H. now right.
Qed.

Lemma outlet_length p : List.length (outlet p) <= 1.
Proof.
  rewrite outlet_matching, length_map.
  destruct (matching_cases p) as [E|[r [_ E]]]; rewrite E; simpl; lia.
Qed.

(** Everything around the outlet is the same for every pathname. *)
Lemma AppLayout_shape p :
  AppLayout p = Host "div" [header; Host "main" (outlet p)].
Proof. reflexivity. Qed.

Lemma delegates_AppLayout p :
  delegates (AppLayout p) = flat_map delegates (outlet p).
Proof.
  unfold AppLayout. cbn [delegates flat_map]. now rewrite app_nil_r.
Qed.

(** The five entries of the table have five different elements. *)
Lemma routes_elements_differ r r' :
  In r routes -> In r' routes -> element r = element r' -> r = r'.
Proof.
  intros H H'. cbn in H, H'.
  repeat (destruct H as [<-|H]; [|]); try destruct H;
    repeat (destruct H' as [<-|H']; [|]); try destruct H';
    cbn; intros E; try discriminate E; reflexivity.
Qed.

Lemma outlet_In_iff p r :
  In r routes -> (In (element r) (outlet p) <-> matches (path r) p = true).
Proof.
  intros Hin. split.
  - rewrite outlet_matching. intros H.
    apply in_map_iff in H as [r' [E H]].
    apply filter_In in H as [Hin' Hm].
    now rewrite <- (routes_elements_differ r' r Hin' Hin E).
  - intros Hm. rewrite (outlet_of_match p r Hin Hm). now left.
Qed.

End Dispatch.

(** ** Decoding *)

Section Decoding.
Import Router.

Lemma unit_slash c :
  (N_of_ascii c =? slashUnit)%N = Ascii.eqb c slash.
Proof.
  destruct c as [[] [] [] [] [] [] [] []]; reflexivity.
Qed.

Lemma units_app a b :
  units (a ++ b) = units a ++ units b.
Proof.
  induction a as [|c a IH]; [reflexivity|].
  cbn [append units app]. now rewrite IH.
Qed.

Lemma units_length s : List.length (units s) = String.length s.
Proof.
  induction s as [|c s IH]; [reflexivity|]. cbn. now rewrite IH.
Qed.

Lemma slashesOnly_units s : slashesOnly (units s) = allSlashes s.
Proof.
  induction s as [|c s IH]; [reflexivity|].
  cbn [units allSlashes]. unfold slashesOnly in *. cbn [forallb].
  now rewrite unit_slash, IH.
Qed.

Lemma split_cons sep s :
  exists h t, split sep s = h :: t.
Proof.
  induction s as [|c s [h [t IH]]]; cbn [split]; [now eexists; eexists|].
  destruct (Ascii.eqb c sep); [now eexists; eexists|].
  rewrite IH. now eexists; eexists.
Qed.

Lemma split_app sep a b :
  split sep (a ++ String sep b) = split sep a ++ split sep b.
Proof.
  induction a as [|c a IH]; cbn [append split app].
  - now rewrite Ascii.eqb_refl.
  - destruct (Ascii.eqb c sep); [now rewrite IH|].
    rewrite IH. destruct (split_cons sep a) as [h [t ->]]. reflexivity.
Qed.

Lemma decodeSegments_app l1 l2 :
  decodeSegments (l1 ++ l2)
  = match decodeSegments l1, decodeSegments l2 with
    | Some a, Some b => Some (a ++ b)
    | _, _ => None
    end.
Proof.
  induction l1 as [|v l1 IH]; cbn [app decodeSegments].
  - now destruct (decodeSegments l2).
  - rewrite IH. destruct (decodeURIComponent v); [|reflexivity].
    destruct (decodeSegments l1); [|reflexivity].
    now destruct (decodeSegments l2).
Qed.

Lemma decodeSegments_cons v l ds :
  decodeSegments (v :: l) = Some ds ->
  exists d ds', ds = d :: ds'.
Proof.
  cbn [decodeSegments]. destruct (decodeURIComponent v); [|discriminate].
  destruct (decodeSegments l); [|discriminate].
  intros [= <-]. now eexists; eexists.
Qed.

Lemma join_app sep a b l1 l2 :
  join sep ((a :: l1) ++ b :: l2)
  = join sep (a :: l1) ++ sep ++ join sep (b :: l2).
Proof.
  revert a. induction l1 as [|x l1 IH]; intros a; [reflexivity|].
  change (join sep ((a :: x :: l1) ++ b :: l2))
    with (a ++ sep ++ join sep ((x :: l1) ++ b :: l2)).
  rewrite IH.
  change (join sep (a :: x :: l1)) with (a ++ sep ++ join sep (x :: l1)).
  now rewrite <- !app_assoc.
Qed.

(** Decoding goes through a slash added at the end. *)
Lemma decodePath_snoc p :
  decodePath (p ++ "/") = decodePath p ++ [slashUnit].
Proof.
  unfold decodePath.
  change (p ++ "/")%string with (p ++ String slash "")%string.
  rewrite (split_app slash p ""), decodeSegments_app.
  destruct (split_cons slash p) as [h [t E]]. rewrite E.
  destruct (decodeSegments (h :: t)) as [ds|] eqn:D.
  - destruct (decodeSegments_cons _ _ _ D) as [d [ds' ->]].
    cbn [split decodeSegments decodeURIComponent unescape utf8 encodeSlashes
         flat_map].
    rewrite join_app. cbn [join]. now rewrite app_nil_r.
  - now rewrite units_app.
Qed.

(** A segment without escapes decodes to itself. *)
Lemma unescape_plain s :
  plain s = true -> unescape s = Some (map Plain (units s)).
Proof.
  induction s as [|c s IH]; [reflexivity|].
  cbn [plain unescape units map]. intros H.
  apply andb_true_iff in H as [Hc Hs]. apply negb_true_iff in Hc.
  now rewrite Hc, (IH Hs).
Qed.

Lemma utf8_plain d : utf8 (map Plain d) = Some d.
Proof.
  induction d as [|u d IH]; [reflexivity|].
  cbn [map utf8]. now rewrite IH.
Qed.

Lemma encodeSlashes_noSlash s :
  noSlash s = true -> encodeSlashes (units s) = units s.
Proof.
  induction s as [|c s IH]; [reflexivity|].
  cbn [noSlash units]. intros H.
  apply andb_true_iff in H as [Hc Hs]. apply negb_true_iff in Hc.
  unfold encodeSlashes in *. cbn [flat_map].
  now rewrite unit_slash, Hc, (IH Hs).
Qed.

Lemma split_noSlash s :
  Forall (fun v => noSlash v = true) (split slash s).
Proof.
  induction s as [|c s IH]; cbn [split]; [now repeat constructor|].
  destruct (Ascii.eqb c slash) eqn:E; [now constructor|].
  destruct (split slash s) as [|h t]; [now repeat constructor; cbn; rewrite E|].
  inversion IH as [|? ? Hh Ht]; subst.
  constructor; [|exact Ht]. cbn [noSlash]. now rewrite E, Hh.
Qed.

Lemma split_plain s :
  plain s = true -> Forall (fun v => plain v = true) (split slash s).
Proof.
  induction s as [|c s IH]; cbn [split plain]; [now repeat constructor|].
  intros H. apply andb_true_iff in H as [Hc Hs]. specialize (IH Hs).
  destruct (Ascii.eqb c slash); [now constructor|].
  destruct (split slash s) as [|h t]; [now repeat constructor; cbn; rewrite Hc|].
  inversion IH as [|? ? Hh Ht]; subst.
  constructor; [|exact Ht]. cbn [plain]. now rewrite Hc, Hh.
Qed.

Lemma decodeSegments_plain l :
  Forall (fun v => plain v = true) l ->
  Forall (fun v => noSlash v = true) l ->
  decodeSegments l = Some (map units l).
Proof.
  induction 1 as [|v l Hv _ IH]; intros N; [reflexivity|].
  inversion N as [|? ? Nv Nl]; subst.
  cbn [decodeSegments map]. unfold decodeURIComponent.
  rewrite (unescape_plain v Hv), utf8_plain, (IH Nl).
  now rewrite (encodeSlashes_noSlash v Nv).
Qed.

Lemma join_split s :
  join [slashUnit] (map units (split slash s)) = units s.
Proof.
  induction s as [|c s IH]; [reflexivity|].
  cbn [split]. destruct (Ascii.eqb c slash) eqn:E.
  - apply Ascii.eqb_eq in E. subst c.
    destruct (split_cons slash s) as [h [t S]]. rewrite S in *.
    change (join [slashUnit] (map units ("" :: h :: t)))
      with ([slashUnit] ++ join [slashUnit] (map units (h :: t))).
    now rewrite IH.
  - destruct (split_cons slash s) as [h [t S]]. rewrite S in *.
    destruct t as [|x t].
    + cbn [join map] in *. cbn [units]. now rewrite IH.
    + change (join [slashUnit] (map units (String c h :: x :: t)))
        with (N_of_ascii c :: (units h ++ [slashUnit]
                                ++ join [slashUnit] (map units (x :: t)))).
      change (join [slashUnit] (map units (h :: x :: t)))
        with (units h ++ [slashUnit] ++ join [slashUnit] (map units (x :: t)))
        in IH.
      now rewrite IH.
Qed.

(** A pathname without escapes decodes to itself. *)
Lemma decodePath_plain p :
  plain p = true -> decodePath p = units p.
Proof.
  intros H. unfold decodePath.
  rewrite (decodeSegments_plain _ (split_plain p H) (split_noSlash p)).
  apply join_split.
Qed.

(** Decoding goes through a leading part without escapes that ends at a
    slash. *)
Lemma decodePath_plain_app a b :
  plain a = true ->
  decodePath (a ++ String slash b) = units a ++ slashUnit :: decodePath b.
Proof.
  intros H. unfold decodePath. rewrite split_app, decodeSegments_app.
  rewrite (decodeSegments_plain _ (split_plain a H) (split_noSlash a)).
  destruct (split_cons slash a) as [h [t S]].
  destruct (split_cons slash b) as [h' [t' S']]. rewrite S'.
  destruct (decodeSegments (h' :: t')) as [ds|] eqn:D.
  - destruct (decodeSegments_cons _ _ _ D) as [d [ds' ->]].
    rewrite S. cbn [map]. rewrite join_app.
    change (units h :: map units t) with (map units (h :: t)).
    rewrite <- S, join_split. reflexivity.
  - now rewrite units_app.
Qed.

End Decoding.

(** ** Decoding and slashes *)

Section DecodingSlashes.
Import Router.

Lemma utf16_cons cp : exists u d, utf16 cp = u :: d.
Proof.
  unfold utf16. destruct (cp <? 65536)%N; now eexists; eexists.
Qed.

(** Decoding makes at least one code unit out of each token it starts
    from. *)
Lemma utf8_cons t ts d :
  utf8 (t :: ts) = Some d -> exists u d', d = u :: d'.
Proof.
  destruct t as [u|b]; cbn [utf8].
  - destruct (utf8 ts); cbn [option_map]; [|discriminate].
    intros [= <-]. now eexists; eexists.
  - unfold option_map.
    repeat match goal with
           | |- context [if ?c then _ else _] => destruct c
           | |- context [match ?x with _ => _ end] => destruct x
           end;
      try discriminate;
      intros H; injection H as H; subst d;
      try (now eexists; eexists);
      match goal with
      | |- context [utf16 ?cp] =>
          let E := fresh "E" in
          destruct (utf16_cons cp) as [? [? E]]; rewrite E;
          now eexists; eexists
      end.
Qed.

Lemma unescape_cons c s ts :
  unescape (String c s) = Some ts -> exists t ts', ts = t :: ts'.
Proof.
  cbn [unescape]. unfold option_map.
  repeat match goal with
         | |- context [if ?c then _ else _] => destruct c
         | |- context [match ?x with _ => _ end] => destruct x
         end;
    cbn [option_map]; try discriminate; intros [= <-]; now eexists; eexists.
Qed.

Lemma decodeURIComponent_cons c s d :
  decodeURIComponent (String c s) = Some d -> exists u d', d = u :: d'.
Proof.
  unfold decodeURIComponent.
  destruct (unescape (String c s)) as [ts|] eqn:U; [|discriminate].
  destruct (unescape_cons _ _ _ U) as [t [ts' ->]]. apply utf8_cons.
Qed.

Lemma encodeSlashes_cons u d :
  exists v e, encodeSlashes (u :: d) = v :: e
              /\ (v =? slashUnit)%N = false.
Proof.
  unfold encodeSlashes; cbn [flat_map].
  destruct (u =? slashUnit)%N eqn:E; cbn [app]; eexists; eexists;
    (split; [reflexivity|]); [reflexivity | exact E].
Qed.

Lemma slashesOnly_app a b :
  slashesOnly (a ++ b) = slashesOnly a && slashesOnly b.
Proof. apply forallb_app. Qed.

Lemma slashesOnly_join ds :
  slashesOnly (join [slashUnit] ds) = forallb slashesOnly ds.
Proof.
  induction ds as [|d ds IH]; [reflexivity|].
  destruct ds as [|e ds].
  - cbn [join forallb]. now rewrite andb_true_r.
  - change (join [slashUnit] (d :: e :: ds))
      with (d ++ [slashUnit] ++ join [slashUnit] (e :: ds)).
    rewrite !slashesOnly_app, IH. reflexivity.
Qed.

Lemma allSlashes_split s :
  allSlashes s = forallb (fun v => String.eqb v "") (split slash s).
Proof.
  induction s as [|c s IH]; [reflexivity|].
  cbn [allSlashes split]. destruct (Ascii.eqb c slash); [exact IH|].
  now destruct (split slash s).
Qed.

Lemma decodeSegments_empties l ds :
  decodeSegments l = Some ds ->
  forallb slashesOnly ds = forallb (fun v => String.eqb v "") l.
Proof.
  revert ds. induction l as [|v l IH]; intros ds; cbn [decodeSegments].
  - now intros [= <-].
  - destruct (decodeURIComponent v) as [d|] eqn:D; [|discriminate].
    destruct (decodeSegments l) as [ds'|]; [|discriminate].
    intros [= <-]. cbn [forallb]. rewrite (IH ds' eq_refl). f_equal.
    destruct v as [|c v].
    + cbn in D. injection D as <-. reflexivity.
    + destruct (decodeURIComponent_cons _ _ _ D) as [u [d' ->]].
      destruct (encodeSlashes_cons u d') as [w [e [-> W]]].
      cbn. unfold slashesOnly. cbn [forallb]. now rewrite W.
Qed.

(** Decoding neither makes nor unmakes a pathname of slashes only. *)
Lemma slashesOnly_decodePath p :
  slashesOnly (decodePath p) = allSlashes p.
Proof.
  unfold decodePath.
  destruct (decodeSegments (split slash p)) as [ds|] eqn:D.
  - now rewrite slashesOnly_join, (decodeSegments_empties _ _ D),
      allSlashes_split.
  - apply slashesOnly_units.
Qed.

Lemma decodeSegments_step v l :
  decodeSegments (v :: l)
  = match decodeURIComponent v, decodeSegments l with
    | Some d, Some ds => Some (encodeSlashes d :: ds)
    | _, _ => None
    end.
Proof. reflexivity. Qed.

(** A pathname that is not empty does not decode to the empty string. *)
Lemma decodePath_cons c p :
  exists u d, decodePath (String c p) = u :: d.
Proof.
  unfold decodePath.
  destruct (decodeSegments (split slash (String c p))) as [ds|] eqn:D;
    [|cbn [units]; eexists; eexists; reflexivity].
  cbn [split] in D. destruct (Ascii.eqb c slash).
  - destruct (split_cons slash p) as [h [t S]]. rewrite S in D.
    rewrite decodeSegments_step in D.
    change (decodeURIComponent "") with (Some (@nil N)) in D.
    destruct (decodeSegments (h :: t)) as [ds'|] eqn:D'; [|discriminate].
    destruct (decodeSegments_cons _ _ _ D') as [d [ds'' ->]].
    injection D as <-. cbn. eexists; eexists; reflexivity.
  - destruct (split_cons slash p) as [h [t S]]. rewrite S in D.
    rewrite decodeSegments_step in D.
    destruct (decodeURIComponent (String c h)) as [d|] eqn:Dh; [|discriminate].
    destruct (decodeSegments t) as [ds'|]; [|discriminate].
    injection D as <-.
    destruct (decodeURIComponent_cons _ _ _ Dh) as [u [d' ->]].
    destruct (encodeSlashes_cons u d') as [w [e [-> _]]].
    destruct ds'; cbn [join app]; eexists; eexists; reflexivity.
Qed.

(** The root pattern accepts the pathnames made of slashes only. *)
Lemma matches_root p :
  matches "/" p = allSlashes p.
Proof.
  unfold matches, matchPath.
  change (compilePath "/") with {| prefix := "/"; tail := TailEnd |}.
  rewrite exec_root. destruct p as [|c p]; [reflexivity|].
  change (pathnameOrRoot (String c p)) with (String c p).
  rewrite <- slashesOnly_decodePath.
  destruct (decodePath_cons c p) as [u [d ->]]. reflexivity.
Qed.

End DecodingSlashes.

(** ** The routing contract *)

Section Contract.
Import Router App.

(** The outlet is what the table says, told without the matcher. *)
Lemma outlet_tableOutlet p : outlet p = tableOutlet p.
Proof.
  rewrite outlet_cases. unfold tableOutlet.
  rewrite (matches_section "/auth/*" "/auth" p eq_refl).
  rewrite (matches_section "/projects/*" "/projects" p eq_refl).
  rewrite (matches_section "/tasks/*" "/tasks" p eq_refl).
  rewrite (matches_section "/chat/*" "/chat" p eq_refl).
  now rewrite matches_root.
Qed.

Lemma unknown_matches_nothing r :
  In r routes -> matches (path r) "/unknown" = false.
Proof.
  intros Hr. cbn in Hr.
  repeat (destruct Hr as [<-|Hr]; [reflexivity|]). destruct Hr.
Qed.

(** C1, as the code has it.  The shell dispatches on the decoded pathname
    according to the routing table: a path whose decoded pathname is
    [/auth], in any letter case, followed by nothing or by a slash and
    then no line terminator, mounts the authentication route tree;
    likewise [/projects], [/tasks] and [/chat] mount the projects, tasks
    and chat trees; a path made of slashes only, the path [/] among them,
    renders the static welcome heading; any other path renders nothing.
    So an escaped letter is matched as the letter, a path that goes on
    with an escaped line feed is not matched, and neither is a longer
    word. *)
Theorem routing_table_dispatch :
  (forall p : string, outlet p = tableOutlet p) /\
  outlet "/" = [welcome] /\
  outlet "//" = [welcome] /\
  outlet "/%61uth/login" = [Mount UserAuthRoutes] /\
  outlet "/chat/%0A" = [] /\
  outlet "/authors" = [].
Proof.
  split; [exact outlet_tableOutlet|].
  split; [reflexivity|]. split; [reflexivity|]. split; [reflexivity|].
  split; reflexivity.
Qed.

(** C1, as the specification words it, fails: the welcome heading is not
    kept to the exact path [/]; the path [//], which is another path and
    matches none of the four splat entries, renders it too. *)
Lemma double_slash_renders_welcome :
  outlet "//" = [welcome] /\
  claimedOutlet "//" = [] /\
  ~ (forall p : string, outlet p = claimedOutlet p).
Proof.
  split; [reflexivity|]. split; [reflexivity|].
  intros H. specialize (H "//"). discriminate H.
Qed.

(** C2, as the code has it.  For every path at most one route subtree is
    active: the outlet holds the elements of the matching table entries,
    of which there is never more than one, so no two delegates are ever
    mounted together; a subtree is active exactly when the path matches
    an entry of the table, and no subtree is active otherwise. *)
Theorem at_most_one_subtree (p : string) :
  outlet p = map element (matching routes p) /\
  List.length (matching routes p) <= 1 /\
  List.length (outlet p) <= 1 /\
  List.length (delegates (AppLayout p)) <= 1 /\
  (List.length (outlet p) = 1 <->
   exists r, In r routes /\ matches (path r) p = true).
Proof.
  pose proof (outlet_matching p) as Ho.
  pose proof (outlet_length p) as Hl.
  split; [exact Ho|].
  split; [rewrite Ho, length_map in Hl; exact Hl|].
  split; [exact Hl|].
  split; [|split].
  - rewrite delegates_AppLayout.
    destruct (matching_cases p) as [E|[r [Hr E]]]; rewrite E in Ho;
      rewrite Ho; cbn [map flat_map]; [cbn; lia|].
    rewrite app_nil_r. cbn in Hr.
    repeat (destruct Hr as [<-|Hr]; [cbn; lia|]). destruct Hr.
  - intros H1. rewrite Ho, length_map in H1.
    destruct (matching routes p) as [|r l] eqn:E; [discriminate|].
    exists r.
    apply (proj1 (filter_In (fun r => matches (path r) p) r routes)).
    fold (matching routes p). rewrite E. now left.
  - intros [r [Hin Hm]]. now rewrite (outlet_of_match p r Hin Hm).
Qed.

Lemma at_most_one_subtree_witness :
  List.length (outlet "/projects/3") = 1.
Proof.
  apply (proj2 (proj2 (proj2 (proj2 (proj2 (at_most_one_subtree "/projects/3")))))).
  exists (mkRoute "/projects/*" (Mount ProjectsRoutes)).
  split; [cbn; tauto | reflexivity].
Defined.

(** C2, as the specification words it, fails: a path outside the table
    has no active subtree at all. *)
Lemma unknown_path_has_no_subtree :
  List.length (outlet "/unknown") = 0 /\
  ~ (forall p : string, List.length (outlet p) = 1).
Proof.
  split; [reflexivity|].
  intros H. specialize (H "/unknown"). discriminate H.
Qed.

(** C3.  For every path matching [/projects/*] the projects delegate is
    mounted, and nothing else: the main region holds it alone, and it is
    the only delegate in the whole rendered shell.  The paths that match
    are those of the projects section: decoded, [/projects] in any letter
    case followed by nothing or by a slash and then no line terminator;
    a path that goes on with an escaped line feed is not one of them. *)
Theorem projects_only (p : string) :
  matches "/projects/*" p = true ->
  mainRegion (AppLayout p) = [Mount ProjectsRoutes] /\
  delegates (AppLayout p) = [ProjectsRoutes] /\
  inSection "/projects" (decoded p) = true /\
  matches "/projects/*" "/projects/%0A" = false.
Proof.
  intros H.
  assert (E : outlet p = [Mount ProjectsRoutes]).
  { apply (outlet_of_match p (mkRoute "/projects/*" (Mount ProjectsRoutes)));
      [cbn; tauto | exact H]. }
  rewrite delegates_AppLayout. cbn [mainRegion AppLayout]. rewrite E.
  split; [reflexivity|]. split; [reflexivity|].
  split; [|reflexivity].
  now rewrite <- (matches_section "/projects/*" "/projects" p eq_refl).
Qed.

Lemma projects_only_witness :
  matches "/projects/*" "/projects/42" = true /\
  mainRegion (AppLayout "/projects/42") = [Mount ProjectsRoutes] /\
  delegates (AppLayout "/projects/42") = [ProjectsRoutes].
Proof.
  destruct (projects_only "/projects/42" eq_refl) as (Hm & Hd & _).
  split; [reflexivity|]. split; [exact Hm | exact Hd].
Defined.

(** C4.  For every path that matches none of the five entries, the main
    region is empty: such a path, decoded, lies in none of the four
    sections and is not made of slashes only.  [/unknown] is such a path,
    and the table has no entry that catches every path. *)
Theorem unmatched_path_renders_blank (p : string) :
  (forall r, In r routes -> matches (path r) p = false) ->
  outlet p = [] /\
  AppLayout p = Host "div" [header; Host "main" []] /\
  (inSection "/auth" (decoded p) = false /\
   inSection "/projects" (decoded p) = false /\
   inSection "/tasks" (decoded p) = false /\
   inSection "/chat" (decoded p) = false /\
   allSlashes p = false) /\
  (forall r, In r routes -> matches (path r) "/unknown" = false) /\
  (forall r, In r routes -> tail (compilePath (path r)) <> TailAny).
Proof.
  intros H. pose proof (outlet_no_match p H) as E.
  split; [exact E|]. split; [rewrite AppLayout_shape; now rewrite E|].
  split; [|split].
  - rewrite <- (matches_section "/auth/*" "/auth" p eq_refl).
    rewrite <- (matches_section "/projects/*" "/projects" p eq_refl).
    rewrite <- (matches_section "/tasks/*" "/tasks" p eq_refl).
    rewrite <- (matches_section "/chat/*" "/chat" p eq_refl).
    rewrite <- matches_root.
    split; [|split; [|split; [|split]]].
    + apply (H (mkRoute "/auth/*" (Mount UserAuthRoutes))). cbn; tauto.
    + apply (H (mkRoute "/projects/*" (Mount ProjectsRoutes))). cbn; tauto.
    + apply (H (mkRoute "/tasks/*" (Mount TasksRoutes))). cbn; tauto.
    + apply (H (mkRoute "/chat/*" (Mount ChatRoutes))). cbn; tauto.
    + apply (H (mkRoute "/" welcome)). cbn; tauto.
  - exact unknown_matches_nothing.
  - intros r Hr. cbn in Hr.
    repeat (destruct Hr as [<-|Hr]; [discriminate|]). destruct Hr.
Qed.

Lemma unmatched_path_renders_blank_witness :
  outlet "/unknown" = [] /\
  AppLayout "/unknown" = Host "div" [header; Host "main" []].
Proof.
  destruct (unmatched_path_renders_blank "/unknown" unknown_matches_nothing)
    as (Ho & Hs & _).
  split; [exact Ho | exact Hs].
Defined.

(** C5.  For the path exactly [/], the welcome heading is the only
    content of the main region, and no feature delegate is mounted. *)
Theorem root_renders_welcome_only :
  mainRegion (AppLayout "/")
    = [Host "h2" [Text "Welcome to your Project Management App!"]] /\
  delegates (AppLayout "/") = [].
Proof. split; reflexivity. Qed.

Lemma decoded_under_auth rest :
  decoded ("/auth/" ++ rest) = units "/auth/" ++ decodePath rest.
Proof.
  unfold decoded.
  change (pathnameOrRoot ("/auth/" ++ rest))
    with ("/auth" ++ String slash rest)%string.
  now rewrite (decodePath_plain_app "/auth" rest eq_refl).
Qed.

Lemma outlet_under_auth rest :
  outlet ("/auth/" ++ rest)
  = if lineFree (decodePath rest) then [Mount UserAuthRoutes] else [].
Proof.
  rewrite outlet_tableOutlet. unfold tableOutlet.
  rewrite decoded_under_auth.
  change (inSection "/auth" (units "/auth/" ++ decodePath rest))
    with (lineFree (decodePath rest)).
  destruct (lineFree (decodePath rest)); reflexivity.
Qed.

(** C6, as the code has it.  For the path [/auth/login], and for every
    path under [/auth/] whose rest decodes to a string without line
    terminator, the authentication delegate is mounted; for a path under
    [/auth/] whose rest decodes to a string with a line terminator,
    nothing is. *)
Theorem auth_subpaths_mount_auth :
  outlet "/auth/login" = [Mount UserAuthRoutes] /\
  (forall rest : string,
      lineFree (decodePath rest) = true ->
      outlet ("/auth/" ++ rest) = [Mount UserAuthRoutes] /\
      delegates (AppLayout ("/auth/" ++ rest)) = [UserAuthRoutes]) /\
  (forall rest : string,
      lineFree (decodePath rest) = false ->
      outlet ("/auth/" ++ rest) = []).
Proof.
  split; [reflexivity|]. split.
  - intros rest L.
    assert (E : outlet ("/auth/" ++ rest) = [Mount UserAuthRoutes])
      by (rewrite outlet_under_auth; now rewrite L).
    split; [exact E|]. rewrite delegates_AppLayout. now rewrite E.
  - intros rest L. rewrite outlet_under_auth. now rewrite L.
Qed.

Lemma auth_subpaths_mount_auth_witness :
  outlet ("/auth/" ++ "register/step%202") = [Mount UserAuthRoutes] /\
  outlet ("/auth/" ++ "a%0Db") = [].
Proof.
  destruct auth_subpaths_mount_auth as (_ & Hyes & Hno).
  split.
  - apply (Hyes "register/step%202"). reflexivity.
  - apply (Hno "a%0Db"). reflexivity.
Defined.

(** C6, as the specification words it, fails: under [/auth/], the path
    that goes on with an escaped line feed mounts nothing. *)
Lemma auth_line_feed_mounts_nothing :
  outlet ("/auth/" ++ "%0A") = [] /\
  ~ (forall rest : string, outlet ("/auth/" ++ rest) = [Mount UserAuthRoutes]).
Proof.
  split; [reflexivity|].
  intros H. specialize (H "%0A"). discriminate H.
Qed.

End Contract.

(** ** Navigation and the header *)

Section Navigation.
Import Router App.

Lemma App_navigate to r b :
  App (navigate to r b) = AppLayout (pathname to).
Proof. unfold navigate. now destruct r. Qed.


Lemma App_clickLink l b :
  App (clickLink l b) = AppLayout (fst l).
Proof. unfold clickLink. apply App_navigate. Qed.




(** C8.  For every path the shell renders the same header, and around
    the outlet the rendered shell does not depend on the path.  The
    header holds four links, labelled Projects, Tasks, Chat and Login.
    The first three point to the prefix of their own route and reach
    their section.  The fourth points to [/login], where the outlet is
    empty: no link of the header reaches the authentication section,
    which is mounted under [/auth/*]. *)
Theorem header_is_persistent :
  (forall p : string, headerRegion (AppLayout p) = Some header) /\
  (forall p q : string, headerRegion (AppLayout p) = headerRegion (AppLayout q)) /\
  (forall p : string, AppLayout p = Host "div" [header; Host "main" (outlet p)]) /\
  map (fun l => (labelOf l, fst l, outlet (fst l))) (links header)
    = [ ("Projects", "/projects", [Mount ProjectsRoutes]);
        ("Tasks", "/tasks", [Mount TasksRoutes]);
        ("Chat", "/chat", [Mount ChatRoutes]);
        ("Login", "/login", []) ] /\
  forallb (fun l => negb (matches "/auth/*" (fst l))) (links header) = true /\
  (forall b : Browser,
      delegates (App (clickLink ("/login", [Text "Login"]) b)) = []).
Proof.
  split; [reflexivity|]. split; [reflexivity|]. split; [reflexivity|].
  split; [reflexivity|]. split; [reflexivity|].
  intros b. now rewrite App_clickLink.
Qed.

(** C10.  The header link labelled Login points to [/login]; that path
    matches no entry of the table, the authentication tree being mounted
    exactly for the paths of the section [/auth]; so following the link
    leaves the main region empty. *)
Theorem login_link_renders_nothing :
  find (fun l => String.eqb (labelOf l) "Login") (links header)
    = Some ("/login", [Text "Login"]) /\
  matching routes "/login" = [] /\
  (forall p : string,
      existsb (Component_eqb UserAuthRoutes) (delegates (AppLayout p))
      = inSection "/auth" (decoded p)) /\
  (forall b : Browser,
      mainRegion (App (clickLink ("/login", [Text "Login"]) b)) = [] /\
      delegates (App (clickLink ("/login", [Text "Login"]) b)) = []).
Proof.
  split; [reflexivity|]. split; [reflexivity|]. split.
  - intros p. rewrite <- (matches_section "/auth/*" "/auth" p eq_refl).
    rewrite delegates_AppLayout, outlet_cases.
    repeat (match goal with
            | |- context [matches ?pat p] => destruct (matches pat p)
            end; [reflexivity|]).
    reflexivity.
  - intros b. rewrite App_clickLink. split; reflexivity.
Qed.

End Navigation.

(** * The build configuration *)

Section Build.
Import Vite.

(** C9.  The configuration is a constant object, which [defineConfig]
    passes through unchanged, with these selections: the React plugin
    with the React compiler as its Babel plugin, the Tailwind CSS plugin,
    output directory [build], minifier [terser], [drop_console] on, and
    a chunk size warning limit of 2000. *)
Theorem build_configuration :
  (forall c : UserConfig, defineConfig c = c) /\
  plugins config
    = [ react {| React.babel :=
                   {| Babel.plugins := [["babel-plugin-react-compiler"]] |} |};
        tailwindcss ] /\
  outDir (build config) = "build" /\
  minify (build config) = "terser" /\
  Terser.drop_console (Terser.compress (terserOptions (build config))) = true /\
  chunkSizeWarningLimit (build config) = 2000%N.
Proof.
  split; [reflexivity|]. split; [reflexivity|]. split; [reflexivity|].
  split; [reflexivity|]. split; reflexivity.
Qed.

End Build.

(** * Further properties of the shell *)

(** ** Slashes and segment boundaries *)

Section Boundaries.
Import Router App.

Lemma lineFree_app a b : lineFree (a ++ b) = lineFree a && lineFree b.
Proof. apply forallb_app. Qed.

Lemma tailMatches_snoc t rest :
  tailMatches t (rest ++ [slashUnit]) = tailMatches t rest.
Proof.
  destruct t.
  - cbn [tailMatches]. rewrite lineFree_app. cbn. apply andb_true_r.
  - rewrite !tailMatches_splat. destruct rest as [|u more]; [reflexivity|].
    cbn [app]. rewrite lineFree_app. cbn. now rewrite andb_true_r.
  - cbn [tailMatches]. rewrite slashesOnly_app. cbn. apply andb_true_r.
Qed.

Lemma stripPrefix_snoc pre d :
  noSlash pre = true ->
  stripPrefix pre (d ++ [slashUnit])
  = option_map (fun rest => rest ++ [slashUnit]) (stripPrefix pre d).
Proof.
  revert d. induction pre as [|a pre IH]; intros d H; [reflexivity|].
  cbn [noSlash] in H. apply andb_true_iff in H as [Ha Hpre].
  apply negb_true_iff in Ha.
  destruct d as [|u d]; cbn [app stripPrefix option_map].
  - change (canonicalize slashUnit) with slashUnit.
    rewrite (canonicalize_slash (N_of_ascii a)), unit_slash, Ha. reflexivity.
  - destruct (canonicalize (N_of_ascii a) =? canonicalize u)%N; [|reflexivity].
    now apply IH.
Qed.

(** A pattern of one static segment takes no notice of a slash added at
    the end of a pathname. *)
Lemma matches_snoc pat pre t p :
  compilePath pat = {| prefix := String slash pre; tail := t |} ->
  noSlash pre = true ->
  matches pat (p ++ "/") = matches pat p.
Proof.
  intros E H. unfold matches, matchPath. rewrite E.
  destruct p as [|c p]; [reflexivity|].
  change (pathnameOrRoot (String c p ++ "/")) with (String c p ++ "/")%string.
  change (pathnameOrRoot (String c p)) with (String c p).
  rewrite decodePath_snoc.
  destruct (decodePath_cons c p) as [u [d ->]].
  unfold exec; cbn [app prefix tail stripPrefix].
  destruct (canonicalize (N_of_ascii slash) =? canonicalize u)%N; [|reflexivity].
  rewrite (stripPrefix_snoc pre d H).
  destruct (stripPrefix pre d); [apply tailMatches_snoc | reflexivity].
Qed.

(** X2.  A trailing slash does not change what the shell renders. *)
Theorem trailing_slash_is_ignored (p : string) :
  outlet (p ++ "/") = outlet p /\ AppLayout (p ++ "/") = AppLayout p.
Proof.
  assert (E : outlet (p ++ "/") = outlet p).
  { rewrite !outlet_cases.
    rewrite (matches_snoc "/auth/*" "auth" TailSplat p eq_refl eq_refl).
    rewrite (matches_snoc "/projects/*" "projects" TailSplat p eq_refl eq_refl).
    rewrite (matches_snoc "/tasks/*" "tasks" TailSplat p eq_refl eq_refl).
    rewrite (matches_snoc "/chat/*" "chat" TailSplat p eq_refl eq_refl).
    rewrite (matches_snoc "/" "" TailEnd p eq_refl eq_refl).
    reflexivity. }
  split; [exact E|]. unfold AppLayout. now rewrite E.
Qed.

Lemma stripPrefix_units pre rest :
  stripPrefix pre (units pre ++ rest) = Some rest.
Proof.
  induction pre as [|a pre IH]; cbn [stripPrefix units app]; [reflexivity|].
  now rewrite N.eqb_refl.
Qed.

Lemma exec_splat_units pre rest :
  exec {| prefix := pre; tail := TailSplat |} (units pre ++ units rest)
  = atBoundary rest.
Proof.
  unfold exec; cbn [prefix tail].
  rewrite stripPrefix_units, tailMatches_splat.
  destruct rest as [|c rest]; [reflexivity|].
  cbn [units atBoundary]. now rewrite unit_slash.
Qed.

Lemma plain_app a b : plain (a ++ b) = plain a && plain b.
Proof.
  induction a as [|c a IH]; [reflexivity|].
  cbn [append plain]. now rewrite IH, andb_assoc.
Qed.

(** A pathname without escapes is matched as it is written. *)
Lemma decoded_plain c p :
  plain (String c p) = true -> decoded (String c p) = units (String c p).
Proof. intros H. unfold decoded. now apply decodePath_plain. Qed.

(** X3.  A feature section begins at a segment boundary.  In a pathname
    without escapes, after the prefix [/auth], [/projects], [/tasks] or
    [/chat], ending there or going on with a slash and then no line
    terminator mounts the delegate of the section; going on with any
    other character ([/authors], [/chatter]) renders nothing. *)
Theorem sections_begin_at_segment_boundary
    (pre : string) (c : Component) (rest : string) :
  In (pre, c) [ ("/auth", UserAuthRoutes); ("/projects", ProjectsRoutes);
                ("/tasks", TasksRoutes); ("/chat", ChatRoutes) ] ->
  plain rest = true ->
  outlet (pre ++ rest) = if atBoundary rest then [Mount c] else [].
Proof.
  intros Hin Hp. rewrite outlet_cases. cbn in Hin.
  destruct Hin as [E|[E|[E|[E|[]]]]]; injection E as <- <-.
  - assert (D : decoded ("/auth" ++ rest) = units "/auth" ++ units rest)
      by (rewrite <- units_app; apply decoded_plain; exact Hp).
    change (matches "/auth/*" ("/auth" ++ rest))
      with (exec {| prefix := "/auth"; tail := TailSplat |}
                 (decoded ("/auth" ++ rest))).
    rewrite D, exec_splat_units. destruct (atBoundary rest); [reflexivity|].
    destruct (matches "/projects/*" _) eqn:H1;
      [apply projects_second in H1; rewrite D in H1; discriminate H1|].
    destruct (matches "/tasks/*" _) eqn:H2;
      [apply tasks_second in H2; rewrite D in H2; discriminate H2|].
    destruct (matches "/chat/*" _) eqn:H3;
      [apply chat_second in H3; rewrite D in H3; discriminate H3|].
    destruct (matches "/" _) eqn:H4;
      [apply root_second in H4 as [H4|H4]; rewrite D in H4; discriminate H4|].
    reflexivity.
  - assert (D : decoded ("/projects" ++ rest)
                = units "/projects" ++ units rest)
      by (rewrite <- units_app; apply decoded_plain; exact Hp).
    destruct (matches "/auth/*" _) eqn:H1;
      [apply auth_second in H1; rewrite D in H1; discriminate H1|].
    change (matches "/projects/*" ("/projects" ++ rest))
      with (exec {| prefix := "/projects"; tail := TailSplat |}
                 (decoded ("/projects" ++ rest))).
    rewrite D, exec_splat_units. destruct (atBoundary rest); [reflexivity|].
    destruct (matches "/tasks/*" _) eqn:H2;
      [apply tasks_second in H2; rewrite D in H2; discriminate H2|].
    destruct (matches "/chat/*" _) eqn:H3;
      [apply chat_second in H3; rewrite D in H3; discriminate H3|].
    destruct (matches "/" _) eqn:H4;
      [apply root_second in H4 as [H4|H4]; rewrite D in H4; discriminate H4|].
    reflexivity.
  - assert (D : decoded ("/tasks" ++ rest) = units "/tasks" ++ units rest)
      by (rewrite <- units_app; apply decoded_plain; exact Hp).
    destruct (matches "/auth/*" _) eqn:H1;
      [apply auth_second in H1; rewrite D in H1; discriminate H1|].
    destruct (matches "/projects/*" _) eqn:H2;
      [apply projects_second in H2; rewrite D in H2; discriminate H2|].
    change (matches "/tasks/*" ("/tasks" ++ rest))
      with (exec {| prefix := "/tasks"; tail := TailSplat |}
                 (decoded ("/tasks" ++ rest))).
    rewrite D, exec_splat_units. destruct (atBoundary rest); [reflexivity|].
    destruct (matches "/chat/*" _) eqn:H3;
      [apply chat_second in H3; rewrite D in H3; discriminate H3|].
    destruct (matches "/" _) eqn:H4;
      [apply root_second in H4 as [H4|H4]; rewrite D in H4; discriminate H4|].
    reflexivity.
  - assert (D : decoded ("/chat" ++ rest) = units "/chat" ++ units rest)
      by (rewrite <- units_app; apply decoded_plain; exact Hp).
    destruct (matches "/auth/*" _) eqn:H1;
      [apply auth_second in H1; rewrite D in H1; discriminate H1|].
    destruct (matches "/projects/*" _) eqn:H2;
      [apply projects_second in H2; rewrite D in H2; discriminate H2|].
    destruct (matches "/tasks/*" _) eqn:H3;
      [apply tasks_second in H3; rewrite D in H3; discriminate H3|].
    change (matches "/chat/*" ("/chat" ++ rest))
      with (exec {| prefix := "/chat"; tail := TailSplat |}
                 (decoded ("/chat" ++ rest))).
    rewrite D, exec_splat_units. destruct (atBoundary rest); [reflexivity|].
    destruct (matches "/" _) eqn:H4;
      [apply root_second in H4 as [H4|H4]; rewrite D in H4; discriminate H4|].
    reflexivity.
Qed.

Lemma sections_begin_at_segment_boundary_witness :
  outlet "/chat/rooms/3" = [Mount ChatRoutes] /\ outlet "/chatter" = [].
Proof.
  split.
  - apply (sections_begin_at_segment_boundary "/chat" ChatRoutes "/rooms/3");
      [cbn; tauto | reflexivity].
  - apply (sections_begin_at_segment_boundary "/chat" ChatRoutes "ter");
      [cbn; tauto | reflexivity].
Defined.

End Boundaries.

(** ** The table entry behind what is rendered *)

Section Entries.
Import Router App.

(** X4.  The welcome heading is rendered exactly for the pathnames made
    of slashes only (the empty pathname, which stands for the root,
    included). *)
Theorem welcome_iff_only_slashes (p : string) :
  outlet p = [welcome] <-> allSlashes p = true.
Proof.
  rewrite <- matches_root. split.
  - rewrite outlet_cases.
    repeat (match goal with
            | |- context [if matches ?pat p then _ else _] =>
                destruct (matches pat p); [discriminate || reflexivity|]
            end).
    discriminate.
  - apply (outlet_of_match p (mkRoute "/" welcome)). cbn; tauto.
Qed.

Lemma welcome_iff_only_slashes_witness :
  outlet "///" = [welcome] /\ allSlashes "/tasks" = false.
Proof.
  split.
  - apply (proj2 (welcome_iff_only_slashes "///")). reflexivity.
  - destruct (allSlashes "/tasks") eqn:E; [|reflexivity].
    apply (proj2 (welcome_iff_only_slashes "/tasks")) in E. discriminate E.
Defined.

(** X5.  The element of a table entry is in the main region exactly when
    the entry's own pattern matches the pathname: no entry is ever
    rendered for a path that belongs to another, and none is shadowed. *)
Theorem entry_rendered_iff_matches (p : string) (r : Route) :
  In r routes ->
  (In (element r) (mainRegion (AppLayout p)) <-> matches (path r) p = true).
Proof.
  intros Hin. cbn [mainRegion AppLayout]. split.
  - rewrite outlet_matching. intros H.
    apply in_map_iff in H as [r' [E H]].
    apply filter_In in H as [Hin' Hm].
    now rewrite <- (routes_elements_differ r' r Hin' Hin E).
  - intros Hm. rewrite (outlet_of_match p r Hin Hm). now left.
Qed.

Lemma entry_rendered_iff_matches_witness :
  matches "/tasks/*" "/tasks/9" = true /\
  In (Mount TasksRoutes) (mainRegion (AppLayout "/tasks/9")).
Proof.
  split; [reflexivity|].
  apply (proj2 (entry_rendered_iff_matches "/tasks/9"
                  (mkRoute "/tasks/*" (Mount TasksRoutes))
                  (or_intror (or_intror (or_introl eq_refl)))));
    reflexivity.
Defined.

(** X8.  Where the links of the header lead: from any state of the
    browser, a click on Projects, Tasks or Chat mounts the delegate of that
    section and no other, and a click on Login mounts none. *)
Theorem header_links_destinations (b : Browser) :
  map (fun l => (labelOf l, delegates (App (clickLink l b)))) (links header)
  = [ ("Projects", [ProjectsRoutes]); ("Tasks", [TasksRoutes]);
      ("Chat", [ChatRoutes]); ("Login", []) ].
Proof.
  change (links header)
    with [ ("/projects", [Text "Projects"]); ("/tasks", [Text "Tasks"]);
           ("/chat", [Text "Chat"]); ("/login", [Text "Login"]) ].
  cbn [map]. rewrite !App_clickLink. reflexivity.
Qed.

End Entries.

(** ** The order of the table *)

Section Order.
Import Router App.

Lemma flattenFrom_route i rs :
  map route (flattenFrom i rs) = rs.
Proof.
  revert i. induction rs as [|r rs IH]; intros i; [reflexivity|].
  cbn [flattenFrom map route]. now rewrite IH.
Qed.

Lemma flattenFrom_relativePath i rs :
  Forall (fun b => relativePath b = path (route b)) (flattenFrom i rs).
Proof.
  revert i. induction rs as [|r rs IH]; intros i; constructor;
    [reflexivity | apply IH].
Qed.

Lemma insertBranch_Permutation b l :
  Permutation (insertBranch b l) (b :: l).
Proof.
  induction l as [|x l IH]; cbn [insertBranch]; [reflexivity|].
  destruct (compareBranches b x <=? 0)%Z; [reflexivity|].
  rewrite IH. apply perm_swap.
Qed.

(** Ranking reorders the branches and drops or adds none. *)
Lemma rankRouteBranches_Permutation l :
  Permutation (rankRouteBranches l) l.
Proof.
  induction l as [|b l IH]; [reflexivity|].
  unfold rankRouteBranches; cbn [fold_right].
  rewrite insertBranch_Permutation. now constructor.
Qed.

Lemma matching_Permutation rs rs' p :
  Permutation rs rs' -> Permutation (matching rs p) (matching rs' p).
Proof.
  unfold matching. induction 1 as [|x l l' _ IH|x y l|l l' l'' _ IH1 _ IH2];
    cbn [filter].
  - reflexivity.
  - destruct (matches (path x) p); [now constructor | exact IH].
  - destruct (matches (path x) p), (matches (path y) p);
      try reflexivity. apply perm_swap.
  - now rewrite IH1.
Qed.

(** For a table of patterns of the embedded kind, when at most one of its
    entries matches a pathname, [<Routes>] renders that entry, wherever it
    ranks. *)
Lemma Routes_single_match rs p :
  List.length (matching rs p) <= 1 ->
  Routes rs p = map element (matching rs p).
Proof.
  intros Hlen. unfold Routes, matchRoutes.
  set (bs := rankRouteBranches (flattenRoutes rs)).
  assert (Pbs : Permutation bs (flattenRoutes rs))
    by apply rankRouteBranches_Permutation.
  assert (Hrel : forall b, In b bs -> relativePath b = path (route b)).
  { intros b Hb. apply (Permutation_in _ Pbs) in Hb.
    pose proof (flattenFrom_relativePath 0 rs) as F.
    rewrite Forall_forall in F. now apply F. }
  assert (Hroute : forall b, In b bs -> In (route b) rs).
  { intros b Hb. apply (Permutation_in _ Pbs) in Hb.
    rewrite <- (flattenFrom_route 0 rs). now apply in_map. }
  assert (Hback : forall r, In r rs -> exists b, In b bs /\ route b = r).
  { intros r Hr. rewrite <- (flattenFrom_route 0 rs) in Hr.
    apply in_map_iff in Hr as [b [E Hb]]. exists b. split; [|exact E].
    apply (Permutation_in _ (Permutation_sym Pbs)). exact Hb. }
  destruct (find _ bs) as [b|] eqn:F; cbn [option_map].
  - apply find_some in F as [Hb Hm].
    unfold matchRouteBranch in Hm. rewrite (Hrel b Hb) in Hm.
    assert (Hin : In (route b) (matching rs p))
      by (apply filter_In; split; [now apply Hroute | exact Hm]).
    destruct (matching rs p) as [|r [|r' l]]; cbn in Hlen; [destruct Hin| |lia].
    destruct Hin as [->|[]]. reflexivity.
  - destruct (matching rs p) as [|r l] eqn:E; [reflexivity|]. exfalso.
    assert (Hr : In r (matching rs p)) by (rewrite E; now left).
    apply filter_In in Hr as [Hr Hm].
    destruct (Hback r Hr) as [b [Hb <-]].
    pose proof (find_none _ _ F b Hb) as N. cbn beta in N.
    unfold matchRouteBranch in N. rewrite (Hrel b Hb) in N.
    unfold matches in Hm. congruence.
Qed.

(** X6.  The order in which the five routes are declared does not
    matter: with the same routes in any other order, [<Routes>] renders the
    same for every pathname. *)
Theorem routes_order_is_irrelevant (rs : list Route) (p : string) :
  Permutation rs routes -> Routes rs p = outlet p.
Proof.
  intros P. rewrite outlet_matching.
  pose proof (matching_Permutation rs routes p P) as Pm.
  assert (E : matching rs p = matching routes p).
  { destruct (matching_cases p) as [E|[r [_ E]]]; rewrite E in Pm |- *.
    - now apply Permutation_nil, Permutation_sym.
    - now apply Permutation_length_1_inv, Permutation_sym. }
  rewrite <- E. apply Routes_single_match.
  rewrite E. destruct (matching_cases p) as [E'|[r [_ E']]];
    rewrite E'; cbn; lia.
Qed.

Lemma routes_order_is_irrelevant_witness :
  Permutation (rev routes) routes /\
  Routes (rev routes) "/tasks/1" = outlet "/tasks/1".
Proof.
  assert (P : Permutation (rev routes) routes)
    by (apply Permutation_sym, Permutation_rev).
  split; [exact P|].
  exact (routes_order_is_irrelevant (rev routes) "/tasks/1" P).
Defined.

End Order.

(** ** The pathnames of a section, spelled out *)

Section Sections.
Import Router App.

Lemma stripPrefix_Some_iff pre d rest :
  stripPrefix pre d = Some rest <->
  exists pre', d = pre' ++ rest /\ foldUnits pre' = foldCase pre.
Proof.
  revert d. induction pre as [|a pre IH]; intros d; cbn [stripPrefix].
  - split.
    + intros [= ->]. now exists [].
    + intros [[|u pre'] [-> E]]; [reflexivity | discriminate E].
  - destruct d as [|u d].
    + split; [discriminate|].
      intros [[|v pre'] [E F]]; [discriminate F | discriminate E].
    + destruct (canonicalize (N_of_ascii a) =? canonicalize u)%N eqn:C.
      * apply N.eqb_eq in C. rewrite IH. split.
        -- intros [pre' [-> E]]. exists (u :: pre'). split; [reflexivity|].
           unfold foldCase, foldUnits in *. cbn [map units]. now rewrite C, E.
        -- intros [[|v pre'] [E F]]; [discriminate F|].
           cbn in E. injection E as <- ->.
           unfold foldCase, foldUnits in *. cbn [map units] in F.
           injection F as _ F. now exists pre'.
      * split; [discriminate|].
        intros [[|v pre'] [E F]]; [discriminate F|].
        cbn in E. injection E as <- _.
        unfold foldCase, foldUnits in *. cbn [map units] in F.
        injection F as F _.
        rewrite F, N.eqb_refl in C. discriminate C.
Qed.

Lemma inSection_iff pre d :
  inSection pre d = true <->
  exists pre' rest,
    d = pre' ++ rest /\ foldUnits pre' = foldCase pre
    /\ (rest = [] \/ exists t, rest = slashUnit :: t /\ lineFree t = true).
Proof.
  rewrite <- exec_splat_inSection. unfold exec; cbn [prefix tail]. split.
  - destruct (stripPrefix pre d) as [rest|] eqn:S; [|discriminate].
    rewrite tailMatches_splat. intros T.
    apply stripPrefix_Some_iff in S as [pre' [E F]].
    exists pre', rest. split; [exact E|]. split; [exact F|].
    destruct rest as [|u t]; [now left|]. right.
    apply andb_true_iff in T as [U L]. apply N.eqb_eq in U. subst u.
    now exists t.
  - intros [pre' [rest [E [F T]]]].
    assert (S : stripPrefix pre d = Some rest)
      by (apply stripPrefix_Some_iff; now exists pre').
    rewrite S, tailMatches_splat.
    destruct T as [->|[t [-> L]]]; [reflexivity|].
    now rewrite N.eqb_refl, L.
Qed.

Lemma delegates_outlet_iff p c :
  delegates (AppLayout p) = [c] <-> In (Mount c) (outlet p).
Proof.
  rewrite delegates_AppLayout, outlet_cases.
  repeat (match goal with
          | |- context [if matches ?pat p then _ else _] =>
              destruct (matches pat p);
              [cbn; split;
               [intros [= <-]; now left | intros [[= <-]|[]]; reflexivity]|]
          end);
    cbn; split; try discriminate; try tauto.
Qed.

Lemma section_pathnames pat pre c p :
  In (mkRoute pat (Mount c)) routes ->
  compilePath pat = {| prefix := pre; tail := TailSplat |} ->
  (delegates (AppLayout p) = [c] <-> inSection pre (decoded p) = true).
Proof.
  intros Hin Hc.
  rewrite delegates_outlet_iff.
  rewrite (outlet_In_iff p (mkRoute pat (Mount c)) Hin). cbn [path].
  now rewrite (matches_section pat pre p Hc).
Qed.

(** X7.  The pathnames of a feature section, spelled out: the delegate
    of a section is mounted exactly for the pathnames that, decoded,
    consist of the section's prefix ([/auth], [/projects], [/tasks] or
    [/chat]), in any letter case, followed by nothing or by a slash and
    then no line terminator. *)
Theorem delegate_mounted_iff (pre : string) (c : Component) (p : string) :
  In (pre, c) [ ("/auth", UserAuthRoutes); ("/projects", ProjectsRoutes);
                ("/tasks", TasksRoutes); ("/chat", ChatRoutes) ] ->
  (delegates (AppLayout p) = [c] <->
   exists pre' rest,
     decoded p = pre' ++ rest /\ foldUnits pre' = foldCase pre
     /\ (rest = [] \/ exists t, rest = slashUnit :: t /\ lineFree t = true)).
Proof.
  intros Hin. rewrite <- inSection_iff. cbn in Hin.
  destruct Hin as [E|[E|[E|[E|[]]]]]; injection E as <- <-.
  - apply (section_pathnames "/auth/*"); [cbn; tauto | reflexivity].
  - apply (section_pathnames "/projects/*"); [cbn; tauto | reflexivity].
  - apply (section_pathnames "/tasks/*"); [cbn; tauto | reflexivity].
  - apply (section_pathnames "/chat/*"); [cbn; tauto | reflexivity].
Qed.

Lemma delegate_mounted_iff_witness :
  delegates (AppLayout "/%41uth/login") = [UserAuthRoutes].
Proof.
  apply (proj2 (delegate_mounted_iff "/auth" UserAuthRoutes "/%41uth/login"
                  (or_introl eq_refl))).
  exists (units "/Auth"), (units "/login").
  split; [reflexivity|]. split; [reflexivity|].
  right. exists (units "login"). split; reflexivity.
Defined.

End Sections.

(** ** Letter case *)

Section LetterCase.
Import Router App.

Ltac order_cases :=
  repeat (match goal with
          | |- context [(?a <=? ?b)%N] => destruct (N.leb_spec a b)
          | |- context [(?a =? ?b)%N] => destruct (N.eqb_spec a b)
          end; cbn [andb orb negb]; try lia).

(** Folding the case moves no code unit onto or off a character that is
    not a letter. *)
Lemma canonicalize_other k u :
  (k < 65)%N -> (canonicalize u =? k)%N = (u =? k)%N.
Proof.
  intros K. unfold canonicalize. order_cases; reflexivity.
Qed.

Lemma canonicalize_lineTerminator u :
  lineTerminator (canonicalize u) = lineTerminator u.
Proof.
  unfold lineTerminator, canonicalize. order_cases; reflexivity.
Qed.

Lemma unit_percent c :
  (N_of_ascii c =? 37)%N = Ascii.eqb c "%"%char.
Proof.
  destruct c as [[] [] [] [] [] [] [] []]; reflexivity.
Qed.

Lemma folded_slash u u' :
  canonicalize u = canonicalize u' ->
  (u =? slashUnit)%N = (u' =? slashUnit)%N.
Proof.
  intros H. rewrite <- (canonicalize_slash u), <- (canonicalize_slash u').
  now rewrite H.
Qed.

Lemma folded_char_is (k : N) c c' :
  (k < 65)%N ->
  canonicalize (N_of_ascii c) = canonicalize (N_of_ascii c') ->
  (N_of_ascii c =? k)%N = (N_of_ascii c' =? k)%N.
Proof.
  intros K H.
  rewrite <- (canonicalize_other k (N_of_ascii c) K),
          <- (canonicalize_other k (N_of_ascii c') K).
  now rewrite H.
Qed.

(** A hexadecimal digit is worth the same in either case. *)
Lemma hexValue_folded c :
  hexValue c
  = let m := canonicalize (N_of_ascii c) in
    if ((48 <=? m) && (m <=? 57))%N then Some (m - 48)%N
    else if ((65 <=? m) && (m <=? 70))%N then Some (m - 55)%N
    else None.
Proof.
  unfold hexValue, canonicalize. cbv zeta.
  generalize (N_of_ascii c); intros n.
  destruct (N.leb_spec 97 n); destruct (N.leb_spec n 122); cbn [andb];
    order_cases; try reflexivity; f_equal; lia.
Qed.

Lemma hexValue_same c c' :
  canonicalize (N_of_ascii c) = canonicalize (N_of_ascii c') ->
  hexValue c = hexValue c'.
Proof. intros H. rewrite !hexValue_folded. now rewrite H. Qed.

(** *** The matcher *)

Lemma lineFree_folded d d' :
  foldUnits d = foldUnits d' -> lineFree d = lineFree d'.
Proof.
  revert d'. induction d as [|u d IH]; intros [|u' d'] H;
    cbn in H; try discriminate; [reflexivity|].
  injection H as Hu Hd. cbn [lineFree forallb].
  rewrite <- (canonicalize_lineTerminator u), Hu, canonicalize_lineTerminator.
  f_equal. apply (IH d' Hd).
Qed.

Lemma slashesOnly_folded d d' :
  foldUnits d = foldUnits d' -> slashesOnly d = slashesOnly d'.
Proof.
  revert d'. induction d as [|u d IH]; intros [|u' d'] H;
    cbn in H; try discriminate; [reflexivity|].
  injection H as Hu Hd. unfold slashesOnly in *. cbn [forallb].
  now rewrite (folded_slash u u' Hu), (IH d' Hd).
Qed.

Lemma tailMatches_folded t d d' :
  foldUnits d = foldUnits d' -> tailMatches t d = tailMatches t d'.
Proof.
  intros H. destruct t.
  - now apply lineFree_folded.
  - rewrite !tailMatches_splat.
    destruct d as [|u d], d' as [|u' d']; cbn in H; try discriminate;
      [reflexivity|].
    injection H as Hu Hd.
    now rewrite (folded_slash u u' Hu), (lineFree_folded d d' Hd).
  - now apply slashesOnly_folded.
Qed.

Lemma stripPrefix_folded pre d d' :
  foldUnits d = foldUnits d' ->
  sameFolded (stripPrefix pre d) (stripPrefix pre d').
Proof.
  revert d d'. induction pre as [|a pre IH]; intros d d' H; cbn [stripPrefix].
  - exact H.
  - destruct d as [|u d], d' as [|u' d']; cbn in H; try discriminate;
      [exact I|].
    injection H as Hu Hd. rewrite Hu.
    destruct (canonicalize (N_of_ascii a) =? canonicalize u')%N; [|exact I].
    now apply IH.
Qed.

Lemma exec_folded m d d' :
  foldUnits d = foldUnits d' -> exec m d = exec m d'.
Proof.
  intros H. unfold exec.
  pose proof (stripPrefix_folded (prefix m) d d' H) as S.
  destruct (stripPrefix (prefix m) d), (stripPrefix (prefix m) d');
    cbn in S; try contradiction; [|reflexivity].
  now apply tailMatches_folded.
Qed.

(** *** Decoding *)

Lemma split_folded s t :
  foldCase s = foldCase t ->
  Forall2 (fun v w => foldCase v = foldCase w) (split slash s) (split slash t).
Proof.
  revert t. induction s as [|c s IH]; intros [|c' t] H;
    cbn in H; try discriminate.
  - repeat constructor.
  - injection H as Hc Hs. specialize (IH t Hs). cbn [split].
    rewrite <- (unit_slash c), <- (unit_slash c'), (folded_slash _ _ Hc).
    destruct (N_of_ascii c' =? slashUnit)%N.
    + constructor; [reflexivity | exact IH].
    + destruct IH as [|v w l l' Hv Hl]; constructor; try assumption;
        try constructor; unfold foldCase, foldUnits in *; cbn [units map];
        now rewrite Hc, ?Hv.
Qed.

Lemma unescape_folded n : forall s t,
  String.length s <= n ->
  foldCase s = foldCase t ->
  match unescape s, unescape t with
  | Some ts, Some ts' => Forall2 sameToken ts ts'
  | None, None => True
  | _, _ => False
  end.
Proof.
  induction n as [|n IH]; intros s t L H.
  - destruct s; [|cbn in L; lia]. destruct t; [|discriminate H]. constructor.
  - destruct s as [|c s], t as [|c' t]; try discriminate H; [constructor|].
    cbn in H. injection H as Hc Hs. cbn [unescape].
    rewrite <- (unit_percent c), <- (unit_percent c').
    rewrite (folded_char_is 37 c c' ltac:(lia) Hc).
    destruct (N_of_ascii c' =? 37)%N.
    + destruct s as [|h1 [|h2 s]], t as [|h1' [|h2' t]];
        cbn in Hs; try discriminate Hs; try exact I.
      injection Hs as H1 H2 Hs.
      rewrite (hexValue_same h1 h1' H1), (hexValue_same h2 h2' H2).
      destruct (hexValue h1'); [|exact I]. destruct (hexValue h2'); [|exact I].
      assert (R := IH s t ltac:(cbn in L; lia) Hs).
      destruct (unescape s), (unescape t); try contradiction; [|exact I].
      constructor; [reflexivity | exact R].
    + assert (R := IH s t ltac:(cbn in L; lia) Hs).
      destruct (unescape s), (unescape t); cbn [option_map];
        try contradiction; [|exact I].
      constructor; [exact Hc | exact R].
Qed.

Lemma continuation_same t t' :
  sameToken t t' -> continuation t = continuation t'.
Proof.
  destruct t, t'; cbn; try contradiction; [reflexivity|]. now intros ->.
Qed.

Lemma sameFolded_cons u u' o o' :
  canonicalize u = canonicalize u' -> sameFolded o o' ->
  sameFolded (option_map (cons u) o) (option_map (cons u') o').
Proof.
  intros Hu. unfold sameFolded, foldUnits.
  destruct o, o'; cbn [option_map map]; try contradiction; [|trivial].
  intros H. now rewrite Hu, H.
Qed.

Lemma sameFolded_code (ok : bool) cp o o' :
  sameFolded o o' ->
  sameFolded (match o with
              | Some d => if ok then Some (utf16 cp ++ d) else None
              | None => None
              end)
             (match o' with
              | Some d => if ok then Some (utf16 cp ++ d) else None
              | None => None
              end).
Proof.
  unfold sameFolded, foldUnits.
  destruct o, o'; try contradiction; [|trivial].
  intros H. destruct ok; [|trivial].
  now rewrite !map_app, H.
Qed.

Lemma utf8_folded n : forall ts ts',
  List.length ts <= n ->
  Forall2 sameToken ts ts' ->
  sameFolded (utf8 ts) (utf8 ts').
Proof.
  induction n as [|n IH]; intros ts ts' L F.
  - destruct F; [reflexivity | cbn in L; lia].
  - destruct F as [|t t' ts ts' Ht F]; [reflexivity|].
    cbn [List.length] in L.
    destruct t as [u|b], t' as [u'|b']; cbn in Ht; try contradiction.
    + cbn [utf8]. apply sameFolded_cons; [exact Ht|]. apply IH; [lia | exact F].
    + subst b'. cbn [utf8].
      destruct (b <? 128)%N.
      { apply sameFolded_cons; [reflexivity|]. apply IH; [lia | exact F]. }
      destruct (b <? 192)%N; [exact I|].
      destruct (b <? 224)%N.
      { destruct F as [|t1 t1' ts ts' H1 F]; [exact I|].
        rewrite (continuation_same _ _ H1).
        destruct (continuation t1'); [|exact I].
        assert (R : sameFolded (utf8 ts) (utf8 ts'))
          by (apply IH; [cbn in L; lia | exact F]).
        apply (sameFolded_code _ _ _ _ R). }
      destruct (b <? 240)%N.
      { destruct F as [|t1 t1' ts ts' H1 F]; [exact I|].
        destruct F as [|t2 t2' ts ts' H2 F]; [exact I|].
        rewrite (continuation_same _ _ H1), (continuation_same _ _ H2).
        destruct (continuation t1'); [|exact I].
        destruct (continuation t2'); [|exact I].
        assert (R : sameFolded (utf8 ts) (utf8 ts'))
          by (apply IH; [cbn in L; lia | exact F]).
        apply (sameFolded_code _ _ _ _ R). }
      destruct (b <? 248)%N; [|exact I].
      destruct F as [|t1 t1' ts ts' H1 F]; [exact I|].
      destruct F as [|t2 t2' ts ts' H2 F]; [exact I|].
      destruct F as [|t3 t3' ts ts' H3 F]; [exact I|].
      rewrite (continuation_same _ _ H1), (continuation_same _ _ H2),
        (continuation_same _ _ H3).
      destruct (continuation t1'); [|exact I].
      destruct (continuation t2'); [|exact I].
      destruct (continuation t3'); [|exact I].
      assert (R : sameFolded (utf8 ts) (utf8 ts'))
        by (apply IH; [cbn in L; lia | exact F]).
      apply (sameFolded_code _ _ _ _ R).
Qed.

Lemma decodeURIComponent_folded v w :
  foldCase v = foldCase w ->
  sameFolded (decodeURIComponent v) (decodeURIComponent w).
Proof.
  intros H. unfold decodeURIComponent.
  pose proof (unescape_folded (String.length v) v w (le_n _) H) as U.
  destruct (unescape v) as [ts|], (unescape w) as [ts'|];
    try contradiction; [|exact I].
  apply (utf8_folded (List.length ts)); [lia | exact U].
Qed.

Lemma encodeSlashes_folded d d' :
  foldUnits d = foldUnits d' ->
  foldUnits (encodeSlashes d) = foldUnits (encodeSlashes d').
Proof.
  revert d'. induction d as [|u d IH]; intros [|u' d'] H;
    cbn in H; try discriminate; [reflexivity|].
  injection H as Hu Hd. unfold encodeSlashes in *. cbn [flat_map].
  unfold foldUnits in *. rewrite !map_app, (IH d' Hd).
  rewrite (folded_slash u u' Hu).
  destruct (u' =? slashUnit)%N; [reflexivity|]. cbn [map]. now rewrite Hu.
Qed.

Lemma decodeSegments_folded l l' :
  Forall2 (fun v w => foldCase v = foldCase w) l l' ->
  match decodeSegments l, decodeSegments l' with
  | Some ds, Some ds' =>
      foldUnits (join [slashUnit] ds) = foldUnits (join [slashUnit] ds')
      /\ (ds = [] <-> ds' = [])
  | None, None => True
  | _, _ => False
  end.
Proof.
  induction 1 as [|v w l l' Hv _ IH]; [now repeat split|].
  rewrite !decodeSegments_step.
  pose proof (decodeURIComponent_folded v w Hv) as D.
  destruct (decodeURIComponent v) as [d|], (decodeURIComponent w) as [d'|];
    cbn in D; try contradiction;
    [|destruct (decodeSegments l); destruct (decodeSegments l');
      try contradiction; exact I].
  destruct (decodeSegments l) as [ds|], (decodeSegments l') as [ds'|];
    try contradiction; [|exact I].
  destruct IH as [J N]. split; [|split; discriminate].
  pose proof (encodeSlashes_folded d d' D) as E.
  destruct ds as [|x ds], ds' as [|x' ds'].
  - exact E.
  - destruct N as [N _]. discriminate (N eq_refl).
  - destruct N as [_ N]. discriminate (N eq_refl).
  - change (join [slashUnit] (encodeSlashes d :: x :: ds))
      with (encodeSlashes d ++ [slashUnit] ++ join [slashUnit] (x :: ds)).
    change (join [slashUnit] (encodeSlashes d' :: x' :: ds'))
      with (encodeSlashes d' ++ [slashUnit] ++ join [slashUnit] (x' :: ds')).
    unfold foldUnits in *. rewrite !map_app. now rewrite E, J.
Qed.

(** Two pathnames that differ only in letter case decode to strings that
    differ only in letter case. *)
Lemma decodePath_folded s t :
  foldCase s = foldCase t ->
  foldUnits (decodePath s) = foldUnits (decodePath t).
Proof.
  intros H. unfold decodePath.
  pose proof (decodeSegments_folded _ _ (split_folded s t H)) as D.
  destruct (decodeSegments (split slash s)),
           (decodeSegments (split slash t)); try contradiction.
  - exact (proj1 D).
  - exact H.
Qed.

Lemma decoded_folded p q :
  foldCase p = foldCase q -> foldUnits (decoded p) = foldUnits (decoded q).
Proof.
  intros H. unfold decoded. apply decodePath_folded.
  destruct p, q; try discriminate H; [reflexivity | exact H].
Qed.

(** X1.  The shell does not depend on letter case: two pathnames that
    differ only in the case of their letters, the hexadecimal digits of
    their escapes included, render the same. *)
Theorem routing_ignores_letter_case (p q : string) :
  foldCase p = foldCase q ->
  outlet p = outlet q /\ AppLayout p = AppLayout q.
Proof.
  intros H.
  assert (M : forall pat, matches pat p = matches pat q).
  { intros pat. unfold matches, matchPath.
    apply exec_folded. now apply decoded_folded. }
  assert (E : outlet p = outlet q) by (rewrite !outlet_cases, !M; reflexivity).
  split; [exact E|]. unfold AppLayout. now rewrite E.
Qed.

Lemma routing_ignores_letter_case_witness :
  AppLayout "/Projects/Alpha%2f%c3%a9" = AppLayout "/projects/ALPHA%2F%C3%A9".
Proof.
  apply (routing_ignores_letter_case
           "/Projects/Alpha%2f%c3%a9" "/projects/ALPHA%2F%C3%A9").
  reflexivity.
Defined.

End LetterCase.
